(** * t5-lumi: corpus sharding pipeline and training driver

    A shallow embedding of [no_tokenize.py] (the [Processor] that reads two
    corpus files, tokenizes them into documents and writes eight shards) and
    of the control skeleton of [train.py] (device assignment, seeding,
    epoch-length agreement, the step loop, checkpoint publication and
    resume), followed by the properties of these functions.

    Python [int] is unbounded and is modelled by [Z]; [len] results and list
    positions are [nat]; [str] is [string]; a [dict] or [Namespace] is a
    [gmap string _]; files live in a [gmap] from path to content. *)

From Stdlib Require Import ZArith Lia Ascii String.
From stdpp Require Import gmap strings list fin_maps pretty.

(** ** Python built-ins used by the two scripts *)

Module Py.

(** [str.isspace] on the ASCII range: TAB, LF, VT, FF, CR, FS, GS, RS, US
    and SPACE.  A [string] is a sequence of one-byte characters, so the
    white space Python knows outside ASCII (NEL, NBSP, U+2028, ...) has no
    character here: what is stated on the characters of a line is stated
    for ASCII lines. *)
Definition isspace (c : ascii) : bool :=
  let n := nat_of_ascii c in
  ((9 <=? n) && (n <=? 13)) || ((28 <=? n) && (n <=? 32)).

Fixpoint lstrip (s : string) : string :=
  match s with
  | EmptyString => EmptyString
  | String c s' => if isspace c then lstrip s' else s
  end.

Fixpoint rstrip (s : string) : string :=
  match s with
  | EmptyString => EmptyString
  | String c s' =>
      match rstrip s' with
      | EmptyString => if isspace c then EmptyString else String c EmptyString
      | r => String c r
      end
  end.

(** [s.strip()] *)
Definition strip (s : string) : string := rstrip (lstrip s).

(** [len(range(start, stop, step))] for [0 <= start] and [0 < step]. *)
Definition range_len (start stop step : nat) : nat :=
  (stop - start + (step - 1)) / step.

(** [list(range(start, stop, step))] *)
Definition range (start stop step : nat) : list nat :=
  (λ k, start + k * step) <$> seq 0 (range_len start stop step).

(** [l[start::step]]: the elements at the positions of
    [range(start, len(l), step)], in that order. *)
Definition slice {A} (l : list A) (start step : nat) : list A :=
  omap (λ j, l !! j) (range start (length l) step).

(** [a // b] and [a % b] on Python integers: floor division, a remainder
    with the sign of the divisor, and [ZeroDivisionError] for [b = 0]. *)
Definition floordiv (a b : Z) : option Z :=
  if (b =? 0)%Z then None else Some (a / b)%Z.

Definition pymod (a b : Z) : option Z :=
  if (b =? 0)%Z then None else Some (a mod b)%Z.

End Py.

(** ** Files

    A file that has been opened for writing exists at once, truncated; it
    holds its payload only when the write has run to the end.  A program
    that writes files is a list of steps, and stopping it after any prefix
    of the steps gives the states a crash can leave behind. *)

Module FS.

Inductive file (A : Type) : Type :=
  | Partial
  | Whole (payload : A).
Arguments Partial {A}.
Arguments Whole {A} payload.

(** [open(path, 'wb')] *)
Definition open_wb {A} (path : string) (fs : gmap string (file A))
  : gmap string (file A) :=
  <[path := Partial]> fs.

(** The payload has been written in full and the file closed. *)
Definition finish_write {A} (path : string) (a : A) (fs : gmap string (file A))
  : gmap string (file A) :=
  <[path := Whole a]> fs.

(** [os.path.exists(path)] *)
Definition exists_ {A} (path : string) (fs : gmap string (file A)) : bool :=
  bool_decide (is_Some (fs !! path)).

(** [os.rename(src, dst)], replacing [dst] when it is there. *)
Definition rename {A} (src dst : string) (fs : gmap string (file A))
  : gmap string (file A) :=
  match fs !! src with
  | Some f => <[dst := f]> (delete src fs)
  | None => fs
  end.

(** Reading a file back: only a whole file can be loaded. *)
Definition load {A} (path : string) (fs : gmap string (file A)) : option A :=
  match fs !! path with
  | Some (Whole a) => Some a
  | _ => None
  end.

Definition run {S} (steps : list (S → S)) (s : S) : S :=
  foldl (λ s f, f s) s steps.

(** The state left by a crash after [k] steps. *)
Definition crash_after {S} (k : nat) (steps : list (S → S)) (s : S) : S :=
  run (take k steps) s.

End FS.

(** ** no_tokenize.py *)

Module NoTokenize.

(** The [ids] of one encoded line, as a numpy array of token ids. *)
Definition token_array := list Z.

(** A document: the token arrays of its lines, in order. *)
Definition document := list token_array.

(** [tokenizers.Tokenizer]: [encode line is_pretokenized add_special_tokens]
    gives the [ids] of the encoding. *)
Record Tokenizer := {
  encode : string → bool → bool → list Z
}.

(** Path templates are represented by their [format] method. *)
Record Processor := {
  ncc_path : Z → string;
  c4_path : Z → string;
  output_path : Z → string;
  tokenizer : Tokenizer
}.

(** The fields [load_and_tokenize] assigns or accumulates. *)
Record ingest_state := {
  documents : list document;
  total_tokens : Z
}.

(** [self.documents[-1].append(arr)]; indexing an empty list raises. *)
Definition append_to_last (docs : list document) (arr : token_array)
  : option (list document) :=
  match docs with
  | [] => None
  | _ => Some (alter (λ d, d ++ [arr]) (length docs - 1) docs)
  end.

(** The body of the loop over [reader.readlines()]. *)
Definition process_line (tk : Tokenizer) (st : ingest_state) (line : string)
  : option ingest_state :=
  match Py.strip line with
  | EmptyString =>
      Some {| documents := documents st ++ [[]];
              total_tokens := total_tokens st |}
  | line' =>
      let tokens := encode tk line' false false in
      if bool_decide (0 < length tokens) then
        docs ← append_to_last (documents st) tokens;
        Some {| documents := docs;
                total_tokens := (total_tokens st + Z.of_nat (length tokens))%Z |}
      else Some st
  end.

Fixpoint read_lines (tk : Tokenizer) (st : ingest_state) (lines : list string)
  : option ingest_state :=
  match lines with
  | [] => Some st
  | line :: rest => st' ← process_line tk st line; read_lines tk st' rest
  end.

(** What [gzip.open(path, "rt")] and [reader.readlines()] find at a path
    that exists: a file that decompresses and decodes to its end, with its
    lines, or one that does not (corrupt gzip data, undecodable text).
    [readlines()] reads the whole file before the first line is processed,
    so the second kind raises with nothing read. *)
Inductive corpus_file : Type :=
  | Text (lines : list string)
  | Corrupt.

(** The files [readlines()] returns from, with their lines. *)
Definition readable (raw : gmap string corpus_file) : gmap string (list string) :=
  omap (λ f, match f with Text lines => Some lines | Corrupt => None end) raw.

(** The loop over the two paths.  [fs] holds the lines of every file that
    can be opened and read to its end; a path that is not in it raises,
    at [gzip.open] or at [readlines()]. *)
Fixpoint read_paths (tk : Tokenizer) (fs : gmap string (list string))
  (st : ingest_state) (paths : list string) : option ingest_state :=
  match paths with
  | [] => Some st
  | path :: rest =>
      lines ← fs !! path;
      st' ← read_lines tk st lines;
      read_paths tk fs st' rest
  end.

(** [Processor.load_and_tokenize] for process [RANK], reading from [fs]. *)
Definition load_and_tokenize (p : Processor) (RANK : Z)
  (fs : gmap string (list string)) : option ingest_state :=
  st ← read_paths (tokenizer p) fs {| documents := [[]]; total_tokens := 0 |}
        [ncc_path p RANK; c4_path p RANK];
  Some {| documents := filter (λ d : document, 0 < length d) (documents st);
          total_tokens := total_tokens st |}.

(** The artifacts [save] writes, in order: name and pickled payload. *)
Definition artifacts (p : Processor) (RANK : Z) (docs : list document)
  : list (string * list document) :=
  (λ i, (output_path p (RANK * 8 + Z.of_nat i)%Z, Py.slice docs i 8)) <$> seq 0 8.

(** One turn of the loop of [save]: open the output path, then dump. *)
Definition write_artifact (a : string * list document)
  : list (gmap string (FS.file (list document)) →
          gmap string (FS.file (list document))) :=
  [FS.open_wb a.1; FS.finish_write a.1 a.2].

Definition save_steps (p : Processor) (RANK : Z) (docs : list document)
  : list (gmap string (FS.file (list document)) →
          gmap string (FS.file (list document))) :=
  artifacts p RANK docs ≫= write_artifact.

(** [Processor.save] *)
Definition save (p : Processor) (RANK : Z) (docs : list document)
  (fs : gmap string (FS.file (list document)))
  : gmap string (FS.file (list document)) :=
  FS.run (save_steps p RANK docs) fs.

(** [str.format] with the spec [{:0Wd}]: at least [W] characters, zero
    padded after the sign. *)
Definition format_0d (W : nat) (n : Z) : string :=
  let digits := pretty (Z.abs n) in
  let sign := if (n <? 0)%Z then "-" else "" in
  let zeros := W - String.length sign - String.length digits in
  sign +:+ String.concat "" (replicate zeros "0") +:+ digits.

(** The [argparse] defaults of the script. *)
Definition default_processor (tk : Tokenizer) : Processor :=
  {| ncc_path := λ n, "../data/pretrain/NCC/segmented/" +:+ format_0d 3 n +:+ ".txt.gz";
     c4_path := λ n, "../data/pretrain/c4/segmented/" +:+ format_0d 3 n +:+ ".txt.gz";
     output_path := λ n, "../data/pretrain/tokenized/nor_ncc_" +:+ format_0d 4 n +:+ ".pickle.gz";
     tokenizer := tk |}.

End NoTokenize.

(** ** train.py *)

Module Train.

Local Open Scope Z_scope.

(** Values of the attributes of an [argparse.Namespace]; a float is kept as
    mantissa and decimal exponent. *)
Inductive value : Type :=
  | VNone
  | VBool (b : bool)
  | VInt (n : Z)
  | VFloat (mantissa exponent : Z)
  | VStr (s : string).

(** [vars(args)]: attribute name to value. *)
Abbreviation namespace := (gmap string value).

Definition getattr_int (args : namespace) (name : string) : option Z :=
  match args !! name with
  | Some (VInt n) => Some n
  | _ => None
  end.

Definition getattr_str (args : namespace) (name : string) : option string :=
  match args !! name with
  | Some (VStr s) => Some s
  | _ => None
  end.

(** What the cluster scheduler puts in [os.environ]. *)
Record environ := {
  WORLD_SIZE : Z;
  SLURM_PROCID : Z;
  SLURM_GPUS_ON_NODE : Z
}.

(** Modelled from the spec: [utils.get_rank], [utils.get_world_size] and
    [utils.is_main_process] are imported from a module that is not part of
    the sources at hand.  The process group is initialised with
    [rank=SLURM_PROCID] and [world_size=WORLD_SIZE], and the designated
    process is rank 0. *)
Definition get_rank (env : environ) : Z := SLURM_PROCID env.
Definition get_world_size (env : environ) : Z := WORLD_SIZE env.
Definition is_main_process (env : environ) : bool := get_rank env =? 0.

(** [rank - gpus_per_node * (rank // gpus_per_node)] in [setup_training]. *)
Definition local_rank (rank gpus_per_node : Z) : option Z :=
  q ← Py.floordiv rank gpus_per_node;
  Some (rank - gpus_per_node * q).

(** [setup_training]: the assertions on the devices, the local device index
    and the attributes it stores on [args]. *)
Definition setup_training (args : namespace) (env : environ)
  (device_count n_training_files : Z) : option (namespace * Z) :=
  if negb (SLURM_GPUS_ON_NODE env =? device_count) then None else
  lr ← local_rank (SLURM_PROCID env) (SLURM_GPUS_ON_NODE env);
  max_steps ← args !! "max_steps";
  Some (<["device_max_steps" := max_steps]>
          (<["n_training_files" := VInt n_training_files]>
             (<["n_gpu" := VInt device_count]> args)),
        lr).

(** [torch.distributed.all_reduce(t, ReduceOp.MIN)]: [tensors] holds the
    tensor of every rank, by rank; afterwards each holds the least one. *)
Definition all_reduce_min (tensors : list Z) : list Z :=
  match tensors with
  | [] => []
  | t :: ts => replicate (length tensors) (foldl Z.min t ts)
  end.

Section Driver.

(** [len] of the [mlm_dataset.Dataset] built from the shard with a given
    index; that class is outside the sources at hand. *)
Variable dataset_len : Z → nat.

(** Everything one optimizer update changes: model, optimizer, gradient
    scaler and scheduler.  The update itself belongs to the model and
    optimizer libraries. *)
Variable learner : Type.
Variable update : Z → Z → learner → learner.

(** The shard a rank trains on in an epoch. *)
Definition train_index (args : namespace) (rank world_size epoch : Z) : option Z :=
  n ← getattr_int args "n_training_files";
  Py.pymod (rank + epoch * world_size) n.

(** [len(train_data) // batch_size]: the full batches of a rank's shard. *)
Definition full_batches (args : namespace) (rank world_size epoch : Z) : option Z :=
  idx ← train_index args rank world_size epoch;
  batch_size ← getattr_int args "batch_size";
  Py.floordiv (Z.of_nat (dataset_len idx)) batch_size.

(** The tensor a rank brings to the reduction in [load_dataset]. *)
Definition local_min_length (args : namespace) (rank world_size epoch : Z) : option Z :=
  b ← full_batches args rank world_size epoch;
  Some (b / 16).

(** [load_dataset]: the length of the rank's data and the reduced
    [min_length], every rank of the group taking part in the reduction. *)
Definition load_dataset (args : namespace) (env : environ) (epoch : Z)
  : option (nat * Z) :=
  idx ← train_index args (get_rank env) (get_world_size env) epoch;
  tensors ← mapM (λ r, local_min_length args (Z.of_nat r) (get_world_size env) epoch)
                 (seq 0 (Z.to_nat (get_world_size env)));
  min_length ← all_reduce_min tensors !! Z.to_nat (get_rank env);
  Some (dataset_len idx, min_length).

(** The [DataLoader]: with [drop_last=True] it yields
    [len(data) // batch_size] batches, shuffled by a generator seeded with
    [seed]; a batch size that is not positive is refused. *)
Record dataloader := {
  n_batches : nat;
  generator_seed : Z
}.

Definition create_train_dataloader (data_len : nat) (args : namespace)
  (global_step seed : Z) : option dataloader :=
  batch_size ← getattr_int args "batch_size";
  if batch_size <=? 0 then None else
  Some {| n_batches := Z.to_nat (Z.of_nat data_len / batch_size);
          generator_seed := seed |}.

(** What a run does that can be observed from outside. *)
Inductive event : Type :=
  | EvStep (global_step : Z)
  | EvSave (epoch global_step : Z).

Record checkpoint := {
  ck_learner : learner;
  ck_global_step : Z;
  ck_epoch : Z;
  ck_args : namespace
}.

Record run_state := {
  weights : learner;
  global_step : Z;
  disk : gmap string (FS.file checkpoint);
  trace : list event
}.

(** One turn of the loop of [training_epoch] up to the exit test. *)
Definition train_step (seed local_step : Z) (st : run_state) : run_state :=
  {| weights := update seed local_step (weights st);
     global_step := global_step st + 1;
     disk := disk st;
     trace := trace st ++ [EvStep (global_step st + 1)] |}.

(** [for local_step, batch in enumerate(train_iter)], [batches] being the
    batches the loader has left. *)
Fixpoint step_loop (args : namespace) (seed : Z) (batches : nat) (local_step : Z)
  (max_local_steps : Z) (st : run_state) : option run_state :=
  match batches with
  | O => Some st
  | S rest =>
      let st' := train_step seed local_step st in
      device_max_steps ← getattr_int args "device_max_steps";
      if (global_step st' >=? device_max_steps) || (local_step >=? max_local_steps - 1)
      then Some st'
      else step_loop args seed rest (local_step + 1) max_local_steps st'
  end.

(** The first line of [training_epoch]. *)
Definition epoch_dataloader (data_len : nat) (args : namespace) (env : environ)
  (global_step epoch : Z) : option dataloader :=
  seed ← getattr_int args "seed";
  create_train_dataloader data_len args global_step
    (seed + get_rank env + epoch * get_world_size env).

Definition training_epoch (data_len : nat) (args : namespace) (env : environ)
  (epoch max_local_steps : Z) (st : run_state) : option run_state :=
  loader ← epoch_dataloader data_len args env (global_step st) epoch;
  step_loop args (generator_seed loader) (n_batches loader) 0 max_local_steps st.

(** [save], as the steps it takes on the disk. *)
Definition save_steps (checkpoint_path : string) (ck : checkpoint) (env : environ)
  : list (gmap string (FS.file checkpoint) → gmap string (FS.file checkpoint)) :=
  if is_main_process env then
    [ (λ fs, if FS.exists_ checkpoint_path fs
             then FS.rename checkpoint_path (checkpoint_path +:+ "_tmp") fs
             else fs);
      FS.open_wb checkpoint_path;
      FS.finish_write checkpoint_path ck ]
  else [].

Definition checkpoint_of (epoch : Z) (args : namespace) (st : run_state) : checkpoint :=
  {| ck_learner := weights st;
     ck_global_step := global_step st;
     ck_epoch := epoch;
     ck_args := args |}.

Definition save (epoch : Z) (args : namespace) (env : environ) (st : run_state)
  : option (string * run_state) :=
  output_dir ← getattr_str args "output_dir";
  let checkpoint_path := output_dir +:+ "/model.bin" in
  Some (checkpoint_path,
        {| weights := weights st;
           global_step := global_step st;
           disk := FS.run (save_steps checkpoint_path (checkpoint_of epoch args st) env)
                          (disk st);
           trace := trace st ++ [EvSave epoch (global_step st)] |}).

(** The head of [__main__]: resume from [args.checkpoint_path] or start
    afresh.  Gives the resolved [args], the checkpoint, [initial_epoch] and
    [global_step]. *)
Definition startup (args : namespace) (env : environ) (generate_id : string)
  (fs : gmap string (FS.file checkpoint))
  : option (namespace * option checkpoint * Z * Z) :=
  match args !! "checkpoint_path" with
  | Some VNone =>
      let wandb_id := if SLURM_PROCID env =? 0 then VStr generate_id else VInt 0 in
      Some (<["wandb_id" := wandb_id]> args, None, 0, 0)
  | Some (VStr path) =>
      ck ← FS.load path fs;
      Some (ck_args ck ∪ args, Some ck, ck_epoch ck + 1, ck_global_step ck)
  | _ => None
  end.

(** [for epoch in count(initial_epoch)]: [None] is an exception or the end
    of [fuel]. *)
Fixpoint epochs (fuel : nat) (args : namespace) (env : environ) (epoch : Z)
  (st : run_state) : option run_state :=
  match fuel with
  | O => None
  | S fuel' =>
      '(data_len, min_length) ← load_dataset args env epoch;
      st1 ← training_epoch data_len args env epoch min_length st;
      '(_, st2) ← save epoch args env st1;
      device_max_steps ← getattr_int args "device_max_steps";
      if global_step st2 >=? device_max_steps then Some st2
      else epochs fuel' args env (epoch + 1) st2
  end.

(** [__main__]: [startup], [setup_training], the restored or fresh learner
    (as [prepare_model_and_optimizer] leaves it), then the epochs. *)
Definition main (fuel : nat) (parsed : namespace) (env : environ)
  (generate_id : string) (device_count n_training_files : Z) (fresh : learner)
  (fs : gmap string (FS.file checkpoint)) : option run_state :=
  '(args, ck, initial_epoch, step) ← startup parsed env generate_id fs;
  '(args', _) ← setup_training args env device_count n_training_files;
  epochs fuel args' env initial_epoch
    {| weights := from_option ck_learner fresh ck;
       global_step := step;
       disk := fs;
       trace := [] |}.

End Driver.

Arguments ck_learner {learner}.
Arguments ck_global_step {learner}.
Arguments ck_epoch {learner}.
Arguments ck_args {learner}.
Arguments weights {learner}.
Arguments global_step {learner}.
Arguments disk {learner}.
Arguments trace {learner}.
Arguments train_step {learner}.
Arguments step_loop {learner}.
Arguments training_epoch {learner}.
Arguments save_steps {learner}.
Arguments checkpoint_of {learner}.
Arguments save {learner}.
Arguments startup {learner}.
Arguments epochs dataset_len {learner}.
Arguments main dataset_len {learner}.

(** [nd in n] on strings: [nd] occurs somewhere in [n]. *)
Definition contains (nd n : string) : bool :=
  match String.index 0 nd n with
  | Some _ => true
  | None => false
  end.

(** The name fragments that exempt a parameter from weight decay. *)
Definition no_decay : list string := ["bias"; "layer_norm"; "_embedding"].

(** [any(nd in n for nd in no_decay)] *)
Definition exempt (n : string) : bool := existsb (λ nd, contains nd n) no_decay.

(** The two comprehensions over [model.named_parameters()] in
    [prepare_model_and_optimizer]. *)
Definition decay_params {P} (params : list (string * P)) : list (string * P) :=
  List.filter (λ np, negb (exempt np.1)) params.

Definition no_decay_params {P} (params : list (string * P)) : list (string * P) :=
  List.filter (λ np, exempt np.1) params.

(** [optimizer_grouped_parameters]: the parameters of each group with its
    weight decay, [args.weight_decay] for the first and [0.0] for the
    second. *)
Definition optimizer_grouped_parameters {P} (args : namespace)
  (params : list (string * P)) : option (list (list P * value)) :=
  weight_decay ← args !! "weight_decay";
  Some [ ((decay_params params).*2, weight_decay);
         ((no_decay_params params).*2, VFloat 0 0) ].

End Train.

(** ** Reference definitions

    What the specification says in its own words, to be compared with the
    functions above. *)

Module Reference.
Import NoTokenize.

(** The order-preserving union, by index, of [n] shards: position [q] of
    the whole is position [q / n] of shard [q mod n]. *)
Definition unshard {A} (n : nat) (shards : list (list A)) : list A :=
  omap (λ q, shards !! (q mod n)%nat ≫= (.!! (q / n)%nat))
       (seq 0 (sum_list (length <$> shards))).

(** A line that is empty once stripped delimits documents. *)
Definition blank (line : string) : bool :=
  match Py.strip line with EmptyString => true | _ => false end.

(** The token arrays of the lines of one document; a line without tokens
    leaves nothing. *)
Definition line_arrays (tk : Tokenizer) (lines : list string) : document :=
  filter (λ a : token_array, (0 < length a)%nat)
         ((λ l, encode tk (Py.strip l) false false) <$> lines).

(** The accumulator of the specification: the sealed documents, the current
    one, and what to do with the next line. *)
Fixpoint accumulate (tk : Tokenizer) (sealed : list document) (current : document)
  (lines : list string) : list document :=
  match lines with
  | [] => filter (λ d : document, (0 < length d)%nat) (sealed ++ [current])
  | line :: rest =>
      if blank line then accumulate tk (sealed ++ [current]) [] rest
      else match encode tk (Py.strip line) false false with
           | [] => accumulate tk sealed current rest
           | tokens => accumulate tk sealed (current ++ [tokens]) rest
           end
  end.

(** The lines between consecutive blank lines. *)
Fixpoint split_blank (lines : list string) : list (list string) :=
  match lines with
  | [] => [[]]
  | line :: rest =>
      if blank line then [] :: split_blank rest
      else match split_blank rest with
           | [] => [[line]]
           | g :: gs => (line :: g) :: gs
           end
  end.

(** The tokens counted while reading: those of the lines that are not
    blank. *)
Definition token_count (tk : Tokenizer) (lines : list string) : Z :=
  foldr (λ line n,
           if blank line then n
           else (Z.of_nat (length (encode tk (Py.strip line) false false)) + n)%Z)
        0%Z lines.

(** The words of a line: the maximal runs without white space. *)
Fixpoint words_from (current : string) (s : string) : list string :=
  let flush := match current with EmptyString => [] | _ => [current] end in
  match s with
  | EmptyString => flush
  | String c s' =>
      if Py.isspace c then flush ++ words_from EmptyString s'
      else words_from (current +:+ String c EmptyString) s'
  end.

(** The tokenizer of the scenario: one id per word, whatever the flags. *)
Definition word_tokenizer (tok : string → Z) : Tokenizer :=
  {| encode := λ line _ _, tok <$> words_from EmptyString line |}.

(** The tokens held by a list of documents. *)
Definition array_total (docs : list document) : Z :=
  foldr (λ d n, (foldr (λ a m, (Z.of_nat (length a) + m)%Z) 0%Z d + n)%Z) 0%Z docs.

(** The shards a reader finds at the eight output paths of a rank. *)
Definition read_shards (p : Processor) (RANK : Z)
  (disk : gmap string (FS.file (list document))) : option (list (list document)) :=
  mapM (λ i : nat, FS.load (output_path p (RANK * 8 + Z.of_nat i)%Z) disk) (seq 0 8).

(** A processor whose output template is the bare number. *)
Definition plain_processor : Processor :=
  {| ncc_path := λ n, "ncc" +:+ pretty n;
     c4_path := λ n, "c4" +:+ pretty n;
     output_path := pretty;
     tokenizer := word_tokenizer (λ w, Z.of_nat (String.length w)) |}.

(** The lines of the scenario of the specification. *)
Definition scenario_lines : list string :=
  ["hello world"; ""; "foo"; "bar"; ""].

(** A processor with another tokenizer. *)
Definition with_tokenizer (p : Processor) (tk : Tokenizer) : Processor :=
  {| ncc_path := ncc_path p; c4_path := c4_path p;
     output_path := output_path p; tokenizer := tk |}.

(** A small run for examples: the default paths, one id per word (its
    length), and a corpus of two files for rank 3. *)
Definition demo_processor : Processor :=
  default_processor (word_tokenizer (λ w, Z.of_nat (String.length w))).

Definition demo_corpus : gmap string (list string) :=
  <[ncc_path demo_processor 3 := ["a b"; " "; "ccc"]]>
    {[c4_path demo_processor 3 := ["dd"; ""; "e"]]}.

Definition demo_documents : list document :=
  [ [[1; 1]%Z]; [[3%Z]; [2%Z]]; [[1%Z]] ].

(** The documents of a sequence of lines read as one file. *)
Definition documents_of (tk : Tokenizer) (lines : list string) : list document :=
  filter (λ d : document, (0 < length d)%nat) (line_arrays tk <$> split_blank lines).

(** The scenario of the epoch-length agreement: three ranks whose shards
    give 120, 115 and 130 full batches of 32. *)
Definition scenario_lengths (idx : Z) : nat :=
  nth (Z.to_nat idx) [3840; 3680; 4160]%nat 0%nat.

Definition scenario_args : Train.namespace :=
  {[ "n_training_files" := Train.VInt 3; "batch_size" := Train.VInt 32 ]}.

Definition scenario_env (rank : Z) : Train.environ :=
  {| Train.WORLD_SIZE := 3; Train.SLURM_PROCID := rank;
     Train.SLURM_GPUS_ON_NODE := 8 |}.

(** A run that has a checkpoint of epoch 2 on disk. *)
Definition demo_old : Train.checkpoint unit :=
  {| Train.ck_learner := tt; Train.ck_global_step := 230; Train.ck_epoch := 2;
     Train.ck_args := {[ "seed" := Train.VInt 7; "max_steps" := Train.VInt 1000 ]} |}.

Definition demo_args : Train.namespace :=
  {[ "output_dir" := Train.VStr "ckpt";
     "checkpoint_path" := Train.VStr "ckpt/model.bin";
     "seed" := Train.VInt 42;
     "batch_size" := Train.VInt 32 ]}.

Definition demo_state : Train.run_state unit :=
  {| Train.weights := tt; Train.global_step := 345;
     Train.disk := {[ "ckpt/model.bin" := FS.Whole demo_old ]};
     Train.trace := [] |}.

(** The disk that run leaves when [save] at the end of epoch 3 stops after
    it has opened the new file, and the run that resumes from the backup
    on that disk. *)
Definition crashed_disk : gmap string (FS.file (Train.checkpoint unit)) :=
  FS.crash_after 2
    (Train.save_steps "ckpt/model.bin"
       (Train.checkpoint_of 3 demo_args demo_state) (scenario_env 0))
    (Train.disk demo_state).

Definition resumed_state : Train.run_state unit :=
  {| Train.weights := tt; Train.global_step := 230;
     Train.disk := crashed_disk; Train.trace := [] |}.

(** The optimizer steps that take the global step from [step] to
    [step + count], as events. *)
Definition step_events (step : Z) (count : nat) : list Train.event :=
  (λ k : nat, Train.EvStep (step + Z.of_nat k)) <$> seq 1 count.

(** The turns of the loop of [training_epoch] in closed form: the loader
    has [batches] batches, [remaining] steps are left before the maximum,
    [budget] before the end of the epoch, and the exit test comes after
    the step. *)
Definition epoch_steps (batches : nat) (remaining budget : Z) : Z :=
  Z.min (Z.of_nat batches) (Z.max 1 (Z.min remaining budget)).

(** The optimizer steps among the events of a run. *)
Definition count_steps (events : list Train.event) : Z :=
  Z.of_nat (length (List.filter
                      (λ e, match e with Train.EvStep _ => true | _ => false end)
                      events)).

(** Two ranks, one of them on a shard of five batches of 32. *)
Definition small_lengths (idx : Z) : nat :=
  nth (Z.to_nat idx) [160; 3200]%nat 0%nat.

Definition small_args : Train.namespace :=
  {[ "n_training_files" := Train.VInt 2;
     "batch_size" := Train.VInt 32;
     "seed" := Train.VInt 42;
     "device_max_steps" := Train.VInt 10;
     "output_dir" := Train.VStr "ckpt" ]}.

Definition small_env : Train.environ :=
  {| Train.WORLD_SIZE := 2; Train.SLURM_PROCID := 0; Train.SLURM_GPUS_ON_NODE := 8 |}.

(** The three ranks of the scenario in a run of at most 20 steps. *)
Definition scenario_run_args : Train.namespace :=
  {[ "n_training_files" := Train.VInt 3;
     "batch_size" := Train.VInt 32;
     "seed" := Train.VInt 42;
     "device_max_steps" := Train.VInt 20;
     "output_dir" := Train.VStr "ckpt" ]}.

(** The same ranks with a limit of two steps, and the states rank 0 goes
    through. *)
Definition short_run_args : Train.namespace :=
  <["device_max_steps" := Train.VInt 2]> scenario_run_args.

Definition short_trained : Train.run_state unit :=
  {| Train.weights := tt; Train.global_step := 2;
     Train.disk := ∅;
     Train.trace := [Train.EvStep 1; Train.EvStep 2] |}.

Definition short_final : Train.run_state unit :=
  {| Train.weights := tt; Train.global_step := 2;
     Train.disk :=
       FS.run (Train.save_steps "ckpt/model.bin"
                 (Train.checkpoint_of 0 short_run_args short_trained)
                 (scenario_env 0)) ∅;
     Train.trace := [Train.EvStep 1; Train.EvStep 2; Train.EvSave 0 2] |}.

Definition fresh_state : Train.run_state unit :=
  {| Train.weights := tt; Train.global_step := 0;
     Train.disk := ∅; Train.trace := [] |}.

End Reference.

(** * Properties *)

(** ** Slices and ranges *)

Module PyFacts.
Import Py.

Lemma range_len_spec (start stop step k : nat) :
  (0 < step)%nat →
  (k < range_len start stop step)%nat ↔ (start + k * step < stop)%nat.
Proof.
  intros Hstep. unfold range_len. split.
  - intros Hk.
    assert (Hle : (step * S k <= stop - start + (step - 1))%nat).
    { etransitivity; [apply Nat.mul_le_mono_l, Hk |].
      apply Nat.Div0.mul_div_le. }
    nia.
  - intros Hk. apply Nat.div_le_lower_bound; [lia | nia].
Qed.

Lemma range_lookup (start stop step k : nat) :
  (0 < step)%nat →
  range start stop step !! k =
    if decide (start + k * step < stop)%nat then Some (start + k * step)%nat else None.
Proof.
  intros Hstep. unfold range. rewrite list_lookup_fmap.
  pose proof (range_len_spec start stop step k Hstep) as Hspec.
  case_decide as Hlt.
  - rewrite lookup_seq_lt by (apply Hspec, Hlt). done.
  - rewrite lookup_seq_ge; [done |]. apply Nat.nlt_ge. intros Hk. apply Hlt, Hspec, Hk.
Qed.

(** [omap] over arguments that are all defined keeps the positions. *)
Lemma omap_lookup_total {A B} (f : A → option B) (l : list A) (k : nat) :
  Forall (λ x, is_Some (f x)) l → omap f l !! k = l !! k ≫= f.
Proof.
  intros Hall. revert k. induction Hall as [| x l [y Hy] _ IH]; intros k.
  - done.
  - cbn. rewrite Hy. destruct k as [| k]; cbn; [by rewrite Hy | apply IH].
Qed.

Lemma omap_length_total {A B} (f : A → option B) (l : list A) :
  Forall (λ x, is_Some (f x)) l → length (omap f l) = length l.
Proof.
  induction 1 as [| x l [y Hy] _ IH]; cbn; [done |]. rewrite Hy. cbn. by rewrite IH.
Qed.

Lemma range_in_bounds {A} (l : list A) (start step : nat) :
  (0 < step)%nat →
  Forall (λ j, is_Some (l !! j)) (range start (length l) step).
Proof.
  intros Hstep. apply Forall_lookup. intros k j Hj.
  rewrite range_lookup in Hj by done. case_decide; [| done].
  injection Hj as <-. by apply lookup_lt_is_Some.
Qed.

(** [l[start::step][k]] is [l[start + k*step]], and both are out of range
    together. *)
Lemma slice_lookup {A} (l : list A) (start step k : nat) :
  (0 < step)%nat → slice l start step !! k = l !! (start + k * step)%nat.
Proof.
  intros Hstep. unfold slice.
  rewrite omap_lookup_total by (by apply range_in_bounds).
  rewrite range_lookup by done. case_decide as Hlt; cbn; [done |].
  symmetry. apply lookup_ge_None. lia.
Qed.

Lemma slice_length {A} (l : list A) (start step : nat) :
  (0 < step)%nat → length (slice l start step) = range_len start (length l) step.
Proof.
  intros Hstep. unfold slice.
  rewrite omap_length_total by (by apply range_in_bounds).
  unfold range. by rewrite length_fmap, length_seq.
Qed.

End PyFacts.

(** ** The Shard Writer *)

Module ShardFacts.
Import Py PyFacts FS NoTokenize Reference.

Lemma artifacts_lookup (p : Processor) (RANK : Z) (D : list document) (i : nat) :
  (i < 8)%nat →
  artifacts p RANK D !! i =
    Some (output_path p (RANK * 8 + Z.of_nat i)%Z, slice D i 8).
Proof.
  intros Hi. unfold artifacts. rewrite list_lookup_fmap, lookup_seq_lt by done. done.
Qed.

(** Eight strided slices of a list have its length between them. *)
Lemma slices_total_length {A} (l : list A) :
  sum_list (length <$> ((λ i, slice l i 8) <$> seq 0 8)) = length l.
Proof.
  cbn [seq fmap list_fmap sum_list sum_list_with].
  rewrite !slice_length by lia. unfold range_len.
  generalize (length l) as n. intros n. unfold id.
  repeat match goal with
  | |- context [ (?a `div` 8)%nat ] =>
      let q := fresh "q" in
      let r := fresh "r" in
      pose proof (Nat.div_mod_eq a 8);
      pose proof (Nat.mod_upper_bound a 8 ltac:(lia));
      set (q := (a `div` 8)%nat) in *; set (r := (a `mod` 8)%nat) in *;
      clearbody q r
  end.
  lia.
Qed.

Lemma unshard_slices {A} (l : list A) :
  unshard 8 ((λ i, slice l i 8) <$> seq 0 8) = l.
Proof.
  unfold unshard. rewrite slices_total_length.
  assert (Hpos : ∀ q, (q < length l)%nat →
            ((λ i, slice l i 8) <$> seq 0 8) !! (q mod 8)%nat
              ≫= (.!! (q / 8)%nat) = l !! q).
  { intros q Hq. rewrite list_lookup_fmap.
    rewrite lookup_seq_lt by (apply Nat.mod_upper_bound; lia).
    cbn [fmap option_fmap option_map mbind option_bind Nat.add].
    rewrite slice_lookup by lia. f_equal.
    pose proof (Nat.div_mod_eq q 8). lia. }
  apply list_eq. intros k.
  rewrite omap_lookup_total.
  - destruct (decide (k < length l)%nat) as [Hk | Hk].
    + rewrite lookup_seq_lt by done. cbn. by apply Hpos.
    + rewrite lookup_seq_ge by lia. cbn. symmetry. apply lookup_ge_None. lia.
  - apply Forall_forall. intros q Hq%elem_of_seq.
    rewrite Hpos by lia. apply lookup_lt_is_Some. lia.
Qed.

(** Opening a path and then writing it out leaves the written file. *)
Lemma run_write_artifacts (arts : list (string * list document))
  (fs : gmap string (file (list document))) :
  run (arts ≫= write_artifact) fs =
    foldl (λ fs a, finish_write a.1 a.2 fs) fs arts.
Proof.
  revert fs. induction arts as [| a arts IH]; intros fs; [done |].
  cbn. unfold run in IH. rewrite IH. f_equal.
  unfold finish_write, open_wb. apply insert_insert_eq.
Qed.

(** C1: [save] deals the documents out round-robin over eight artifacts:
    artifact [i] is named from [RANK * 8 + i] and holds the documents at
    positions [i], [i + 8], [i + 16], ... in order; the artifacts put
    together by index give the documents back; no position goes to two
    artifacts; and these artifacts are what [save] leaves on disk. *)
Theorem save_round_robin (p : Processor) (RANK : Z) (D : list document)
  (fs : gmap string (file (list document))) :
  length (artifacts p RANK D) = 8%nat
  ∧ (∀ i, (i < 8)%nat →
       artifacts p RANK D !! i =
         Some (output_path p (RANK * 8 + Z.of_nat i)%Z, slice D i 8))
  ∧ (∀ i k, slice D i 8 !! k = D !! (i + k * 8)%nat)
  ∧ unshard 8 (snd <$> artifacts p RANK D) = D
  ∧ (∀ i j k k', (i < 8)%nat → (j < 8)%nat →
       (i + k * 8 = j + k' * 8)%nat → i = j ∧ k = k')
  ∧ save p RANK D fs =
      foldl (λ fs a, finish_write a.1 a.2 fs) fs (artifacts p RANK D).
Proof.
  split_and!.
  - unfold artifacts. by rewrite length_fmap, length_seq.
  - intros i Hi. by apply artifacts_lookup.
  - intros i k. apply slice_lookup. lia.
  - unfold artifacts. rewrite <- list_fmap_compose.
    apply (unshard_slices D).
  - intros i j k k' Hi Hj Heq. lia.
  - unfold save, save_steps. apply run_write_artifacts.
Qed.

(** *** Publication of the artifacts *)

Lemma run_app {S} (l k : list (S → S)) (s : S) :
  run (l ++ k) s = run k (run l s).
Proof. unfold run. apply foldl_app. Qed.

(** Stopping in the middle of artifact [i]: the artifacts before it have
    been written, and its own path has just been opened. *)
Lemma take_write_artifacts (arts : list (string * list document)) (i : nat)
  (a : string * list document) :
  arts !! i = Some a →
  take (2 * i + 1) (arts ≫= write_artifact) =
    (take i arts ≫= write_artifact) ++ [open_wb a.1].
Proof.
  revert i. induction arts as [| b arts IH]; intros i Hi; [done |].
  destruct i as [| i]; cbn in Hi.
  - injection Hi as ->. done.
  - replace (2 * S i + 1)%nat with (S (S (2 * i + 1))) by lia.
    cbn. f_equal. f_equal. by apply IH.
Qed.

(** A path that is not an output path is left alone by every prefix of
    the steps. *)
Lemma run_steps_other (arts : list (string * list document)) (path : string)
  (k : nat) (fs : gmap string (file (list document))) :
  path ∉ arts.*1 →
  crash_after k (arts ≫= write_artifact) fs !! path = fs !! path.
Proof.
  intros Hpath. unfold crash_after.
  assert (Hsteps : Forall (λ f : gmap string (file (list document)) → _,
                      ∀ fs, f fs !! path = fs !! path)
                     (arts ≫= write_artifact)).
  { induction arts as [| a arts IH]; [constructor |].
    rewrite fmap_cons, not_elem_of_cons in Hpath. destruct Hpath as [Hne Hrest].
    cbn. repeat constructor.
    - intros fs'. unfold open_wb. by rewrite lookup_insert_ne.
    - intros fs'. unfold finish_write. by rewrite lookup_insert_ne.
    - by apply IH. }
  apply (Forall_take _ k) in Hsteps. revert fs.
  induction Hsteps as [| f steps Hf _ IH]; intros fs; [done |].
  cbn. unfold run in IH. by rewrite IH, Hf.
Qed.

(** With distinct names, every artifact is whole at its path at the end. *)
Lemma written_artifact_lookup (arts : list (string * list document)) :
  ∀ (fs : gmap string (file (list document))) (i : nat) (a : string * list document),
  NoDup arts.*1 → arts !! i = Some a →
  foldl (λ fs a, finish_write a.1 a.2 fs) fs arts !! a.1 = Some (Whole a.2).
Proof.
  assert (Hother : ∀ (l : list (string * list document)) fs path,
            path ∉ l.*1 →
            foldl (λ fs a, finish_write a.1 a.2 fs) fs l !! path = fs !! path).
  { induction l as [| b l IH]; intros fs path Hp; [done |].
    rewrite fmap_cons, not_elem_of_cons in Hp. destruct Hp as [Hne Hrest].
    cbn. rewrite IH by done. unfold finish_write. by rewrite lookup_insert_ne. }
  induction arts as [| b arts IH]; intros fs i a Hnd Hi; [done |].
  rewrite fmap_cons in Hnd. apply NoDup_cons in Hnd as [Hb Hnd].
  destruct i as [| i]; cbn in Hi |- *.
  - injection Hi as ->. rewrite Hother by done.
    unfold finish_write. apply lookup_insert_eq.
  - by apply (IH _ i).
Qed.

(** C6, as the code has it: [save] writes every artifact in place.  It
    opens the final output path and dumps into it; there is no temporary
    name and no rename.  So no path but the eight output paths is ever
    touched, a crash in the middle of artifact [i] leaves a partial file at
    its final path, and when [save] has returned (the eight names being
    distinct) every output path holds its whole artifact. *)
Theorem save_writes_in_place (p : Processor) (RANK : Z) (D : list document)
  (fs : gmap string (file (list document))) :
  NoDup (artifacts p RANK D).*1 →
  (∀ k path, path ∉ (artifacts p RANK D).*1 →
     crash_after k (save_steps p RANK D) fs !! path = fs !! path)
  ∧ (∀ i, (i < 8)%nat →
       crash_after (2 * i + 1) (save_steps p RANK D) fs
         !! output_path p (RANK * 8 + Z.of_nat i)%Z = Some Partial)
  ∧ (∀ i, (i < 8)%nat →
       load (output_path p (RANK * 8 + Z.of_nat i)%Z) (save p RANK D fs)
         = Some (slice D i 8)).
Proof.
  intros Hnd. split_and!.
  - intros k path Hpath. by apply run_steps_other.
  - intros i Hi. unfold crash_after, save_steps.
    rewrite (take_write_artifacts _ i _ (artifacts_lookup p RANK D i Hi)).
    rewrite run_app. cbn. unfold open_wb. apply lookup_insert_eq.
  - intros i Hi. unfold load, save, save_steps. rewrite run_write_artifacts.
    pose proof (written_artifact_lookup (artifacts p RANK D) fs i _ Hnd
                  (artifacts_lookup p RANK D i Hi)) as Hw.
    cbn [fst snd] in Hw. by rewrite Hw.
Qed.

Lemma save_writes_in_place_witness :
  crash_after 5 (save_steps demo_processor 3 demo_documents) ∅
    !! output_path demo_processor 26 = Some Partial
  ∧ load (output_path demo_processor 26) (save demo_processor 3 demo_documents ∅)
    = Some [ [[1%Z]] ].
Proof.
  pose proof (save_writes_in_place demo_processor 3 demo_documents ∅
                ltac:(apply (bool_decide_unpack _); vm_compute; exact I))
    as (_ & Hpartial & Hwhole).
  split; [exact (Hpartial 2%nat ltac:(lia)) | exact (Hwhole 2%nat ltac:(lia))].
Defined.

(** C6, as the claim states it, fails: after the first step of [save] the
    final path of artifact 0 holds a partial file. *)
Lemma save_partial_artifact_visible :
  crash_after 1 (save_steps demo_processor 0 demo_documents) ∅
    !! output_path demo_processor 0 = Some Partial
  ∧ load (output_path demo_processor 0)
      (crash_after 1 (save_steps demo_processor 0 demo_documents) ∅) = None.
Proof. split; by vm_compute. Qed.

End ShardFacts.

(** ** The Tokenizing Ingest *)

Module IngestFacts.
Import Py FS NoTokenize Reference.

Lemma append_to_last_snoc (sealed : list document) (current : document)
  (arr : token_array) :
  append_to_last (sealed ++ [current]) arr = Some (sealed ++ [current ++ [arr]]).
Proof.
  unfold append_to_last. destruct (sealed ++ [current]) eqn:E.
  - by destruct sealed.
  - rewrite <- E. f_equal. rewrite length_app. cbn.
    replace (length sealed + 1 - 1)%nat with (length sealed + 0)%nat by lia.
    by rewrite alter_app_r.
Qed.

(** The loop over the lines keeps the list of documents non-empty, so it
    never raises, and it is the accumulator of the specification. *)
Lemma read_lines_accumulate (tk : Tokenizer) (lines : list string) :
  ∀ (sealed : list document) (current : document) (total : Z),
  ∃ sealed' current',
    read_lines tk {| documents := sealed ++ [current]; total_tokens := total |} lines
      = Some {| documents := sealed' ++ [current'];
                total_tokens := (total + token_count tk lines)%Z |}
    ∧ filter (λ d : document, 0 < length d) (sealed' ++ [current'])
      = accumulate tk sealed current lines.
Proof.
  induction lines as [| line rest IH]; intros sealed current total.
  - exists sealed, current. cbn. split; [| done]. do 2 f_equal. lia.
  - cbn [read_lines accumulate token_count foldr]. fold (token_count tk rest).
    unfold process_line.
    assert (blank line = match strip line with EmptyString => true | _ => false end)
      as -> by done.
    destruct (strip line) as [| c s] eqn:Hstrip.
    + cbn. destruct (IH (sealed ++ [current]) [] total) as (s' & c' & Hrun & Hacc).
      exists s', c'. by split.
    + destruct (encode tk (String c s) false false) as [| t ts] eqn:Henc.
      * rewrite bool_decide_false by (cbn; lia). cbn [mbind option_bind].
        destruct (IH sealed current total) as (s' & c' & Hrun & Hacc).
        exists s', c'. by split.
      * rewrite bool_decide_true by (cbn; lia).
        cbn [documents total_tokens]. rewrite append_to_last_snoc. cbn [mbind option_bind].
        destruct (IH sealed (current ++ [t :: ts])
                    (total + Z.of_nat (length (t :: ts)))%Z)
          as (s' & c' & Hrun & Hacc).
        exists s', c'. split; [| done]. etrans; [exact Hrun |].
        by rewrite Z.add_assoc.
Qed.

Lemma read_lines_app (tk : Tokenizer) (a b : list string) (st : ingest_state) :
  read_lines tk st (a ++ b) = read_lines tk st a ≫= λ st', read_lines tk st' b.
Proof.
  revert st. induction a as [| line a IH]; intros st; [done |].
  cbn. destruct (process_line tk st line) as [st' |]; cbn; [apply IH | done].
Qed.

(** Two files are read as their concatenation. *)
Lemma load_and_tokenize_accumulate (p : Processor) (RANK : Z)
  (fs : gmap string (list string)) (ncc c4 : list string) :
  fs !! ncc_path p RANK = Some ncc →
  fs !! c4_path p RANK = Some c4 →
  load_and_tokenize p RANK fs =
    Some {| documents := accumulate (tokenizer p) [] [] (ncc ++ c4);
            total_tokens := token_count (tokenizer p) (ncc ++ c4) |}.
Proof.
  intros Hncc Hc4. unfold load_and_tokenize. cbn [read_paths].
  rewrite Hncc, Hc4. cbn [mbind option_bind].
  destruct (read_lines_accumulate (tokenizer p) (ncc ++ c4) [] [] 0)
    as (s' & c' & Hrun & Hacc).
  rewrite read_lines_app in Hrun. cbn [app] in Hrun.
  destruct (read_lines (tokenizer p) _ ncc) as [st1 |]; [| done].
  cbn [mbind option_bind] in Hrun |- *.
  destruct (read_lines (tokenizer p) st1 c4) as [st2 |]; [| done].
  cbn. injection Hrun as ->. cbn. by rewrite Hacc.
Qed.

Lemma split_blank_nonempty (lines : list string) : split_blank lines ≠ [].
Proof.
  destruct lines as [| line rest]; cbn; [done |].
  destruct (blank line); [done |]. by destruct (split_blank rest).
Qed.

Lemma line_arrays_cons (tk : Tokenizer) (line : string) (g : list string) :
  line_arrays tk (line :: g) =
    match encode tk (strip line) false false with
    | [] => line_arrays tk g
    | tokens => tokens :: line_arrays tk g
    end.
Proof.
  unfold line_arrays. rewrite fmap_cons, filter_cons.
  destruct (encode tk (strip line) false false); cbn.
  - rewrite decide_False by lia. done.
  - rewrite decide_True by lia. done.
Qed.

Lemma line_arrays_app (tk : Tokenizer) (a b : list string) :
  line_arrays tk (a ++ b) = line_arrays tk a ++ line_arrays tk b.
Proof. unfold line_arrays. by rewrite fmap_app, filter_app. Qed.

(** The accumulator seals exactly the groups between blank lines. *)
Lemma accumulate_split (tk : Tokenizer) (lines : list string) :
  ∀ (sealed : list document) (current : document),
  accumulate tk sealed current lines =
    filter (λ d : document, 0 < length d)
      (sealed ++ match split_blank lines with
                 | [] => [current]
                 | g :: gs => (current ++ line_arrays tk g) :: (line_arrays tk <$> gs)
                 end).
Proof.
  induction lines as [| line rest IH]; intros sealed current.
  - cbn. by rewrite app_nil_r.
  - cbn [accumulate split_blank]. pose proof (split_blank_nonempty rest) as Hne.
    destruct (blank line).
    + rewrite IH. destruct (split_blank rest) as [| g gs]; [done |].
      cbn. by rewrite app_nil_r, <- app_assoc.
    + destruct (split_blank rest) as [| g gs] eqn:Hsplit; [done |].
      rewrite line_arrays_cons.
      destruct (encode tk (strip line) false false) as [| t ts]; rewrite IH.
      * done.
      * by rewrite <- app_assoc.
Qed.

Lemma accumulate_documents_of (tk : Tokenizer) (lines : list string) :
  accumulate tk [] [] lines = documents_of tk lines.
Proof.
  rewrite accumulate_split. unfold documents_of.
  pose proof (split_blank_nonempty lines). by destruct (split_blank lines).
Qed.

(** Only [encode _ false false] is ever consulted. *)
Lemma accumulate_ext (tk tk' : Tokenizer) (lines : list string) :
  (∀ line, encode tk' line false false = encode tk line false false) →
  ∀ sealed current, accumulate tk' sealed current lines = accumulate tk sealed current lines.
Proof.
  intros Hext. induction lines as [| line rest IH]; intros sealed current; [done |].
  cbn. rewrite Hext. destruct (blank line); [apply IH |].
  destruct (encode tk (strip line) false false); apply IH.
Qed.

Lemma token_count_ext (tk tk' : Tokenizer) (lines : list string) :
  (∀ line, encode tk' line false false = encode tk line false false) →
  token_count tk' lines = token_count tk lines.
Proof.
  intros Hext. induction lines as [| line rest IH]; [done |].
  cbn. fold (token_count tk' rest) (token_count tk rest). by rewrite IH, Hext.
Qed.

Lemma split_blank_at_blank (a b : list string) (line : string) :
  blank line = true → split_blank (a ++ line :: b) = split_blank a ++ split_blank b.
Proof.
  intros Hb. induction a as [| x a IH]; cbn.
  - by rewrite Hb.
  - rewrite IH. destruct (blank x); [done |].
    pose proof (split_blank_nonempty a). by destruct (split_blank a).
Qed.

Lemma split_blank_run (run : list string) :
  forallb (λ l, negb (blank l)) run = true → split_blank run = [run].
Proof.
  induction run as [| x run IH]; cbn; [done |].
  intros [Hx Hrun]%andb_prop. rewrite IH by done.
  by destruct (blank x).
Qed.

Lemma documents_of_at_blank (tk : Tokenizer) (a b : list string) (line : string) :
  blank line = true →
  documents_of tk (a ++ line :: b) = documents_of tk a ++ documents_of tk b.
Proof.
  intros Hb. unfold documents_of.
  by rewrite split_blank_at_blank, fmap_app, filter_app.
Qed.

Lemma documents_of_run (tk : Tokenizer) (run : list string) :
  forallb (λ l, negb (blank l)) run = true →
  documents_of tk run = filter (λ d : document, 0 < length d) [line_arrays tk run].
Proof. intros Hrun. unfold documents_of. by rewrite split_blank_run. Qed.

(** A run of lines between two blank lines, or between a blank line and an
    end of the input, is one document, wherever the file boundary falls. *)
Lemma documents_of_around_run (tk : Tokenizer) (pre run rest : list string) :
  forallb (λ l, negb (blank l)) run = true →
  from_option blank true (last pre) = true →
  from_option blank true (head rest) = true →
  documents_of tk (pre ++ run ++ rest) =
    documents_of tk pre
      ++ filter (λ d : document, 0 < length d) [line_arrays tk run]
      ++ documents_of tk rest.
Proof.
  intros Hrun Hpre Hrest.
  assert (Hright : documents_of tk (run ++ rest) =
            filter (λ d : document, 0 < length d) [line_arrays tk run]
              ++ documents_of tk rest).
  { destruct rest as [| l rest]; cbn in Hrest.
    - rewrite app_nil_r, documents_of_run by done.
      by rewrite app_nil_r.
    - rewrite documents_of_at_blank, documents_of_run by done.
      f_equal. change (l :: rest) with ([] ++ l :: rest).
      by rewrite documents_of_at_blank. }
  destruct (last pre) as [l |] eqn:Hlast; cbn in Hpre.
  - apply last_Some in Hlast as [pre' ->].
    rewrite <- app_assoc. cbn [app].
    rewrite !documents_of_at_blank by done.
    rewrite Hright. change (documents_of tk []) with (@nil document).
    by rewrite app_nil_r.
  - apply last_None in Hlast as ->. cbn [app]. by rewrite Hright.
Qed.

(** C3: [load_and_tokenize] never raises on two readable files and is the
    accumulator of the specification run over the lines of both: it starts
    from one empty document, a line that is empty once stripped seals the
    current document and opens a new one, any other line is encoded with
    [is_pretokenized=False] and [add_special_tokens=False] and appended when
    it has tokens, and the documents without lines are dropped at the end;
    the tokenizer is consulted with these two flags only.  On the lines
    ["hello world"; ""; "foo"; "bar"; ""] with one id per word this gives
    the two documents [[tok hello; tok world]] and [[tok foo]; [tok bar]]. *)
Theorem load_and_tokenize_documents (p : Processor) (RANK : Z)
  (fs : gmap string (list string)) (ncc c4 : list string) :
  fs !! ncc_path p RANK = Some ncc →
  fs !! c4_path p RANK = Some c4 →
  load_and_tokenize p RANK fs =
    Some {| documents := accumulate (tokenizer p) [] [] (ncc ++ c4);
            total_tokens := token_count (tokenizer p) (ncc ++ c4) |}
  ∧ (∀ tk',
       (∀ line, encode tk' line false false = encode (tokenizer p) line false false) →
       load_and_tokenize (with_tokenizer p tk') RANK fs = load_and_tokenize p RANK fs)
  ∧ (∀ tok : string → Z,
       let q := default_processor (word_tokenizer tok) in
       load_and_tokenize q 0 (<[ncc_path q 0 := scenario_lines]> {[c4_path q 0 := []]}) =
         Some {| documents := [ [[tok "hello"; tok "world"]];
                                [[tok "foo"]; [tok "bar"]] ];
                 total_tokens := 4 |}).
Proof.
  intros Hncc Hc4. split_and!.
  - by apply load_and_tokenize_accumulate.
  - intros tk' Hext.
    rewrite (load_and_tokenize_accumulate p RANK fs ncc c4) by done.
    rewrite (load_and_tokenize_accumulate (with_tokenizer p tk') RANK fs ncc c4) by done.
    cbn [with_tokenizer tokenizer].
    by rewrite (accumulate_ext (tokenizer p) tk'),
               (token_count_ext (tokenizer p) tk').
  - intros tok q.
    rewrite (load_and_tokenize_accumulate q 0 _ scenario_lines []);
      [| by vm_compute | by vm_compute].
    by vm_compute.
Qed.

Lemma load_and_tokenize_documents_witness :
  load_and_tokenize demo_processor 3 demo_corpus =
    Some {| documents := demo_documents; total_tokens := 5 |}.
Proof.
  exact (proj1 (load_and_tokenize_documents demo_processor 3 demo_corpus
                  ["a b"; " "; "ccc"] ["dd"; ""; "e"] eq_refl eq_refl)).
Defined.

(** C10: the current document is not reset between the two corpus files.
    When the first file ends in a run [tail] of lines that are not blank
    and the second starts with such a run [head_], the token arrays of
    both runs form one document, between the documents of what comes
    before in the first file and of what comes after in the second: the
    result is that of reading the two files as one. *)
Theorem documents_span_file_boundary (p : Processor) (RANK : Z)
  (fs : gmap string (list string)) (pre tail head_ rest : list string) :
  fs !! ncc_path p RANK = Some (pre ++ tail) →
  fs !! c4_path p RANK = Some (head_ ++ rest) →
  tail ≠ [] →
  forallb (λ l, negb (blank l)) tail = true →
  forallb (λ l, negb (blank l)) head_ = true →
  from_option blank true (last pre) = true →
  from_option blank true (head rest) = true →
  ∃ st,
    load_and_tokenize p RANK fs = Some st
    ∧ documents st = documents_of (tokenizer p) ((pre ++ tail) ++ (head_ ++ rest))
    ∧ documents st =
        documents_of (tokenizer p) pre
          ++ filter (λ d : document, 0 < length d)
               [line_arrays (tokenizer p) tail ++ line_arrays (tokenizer p) head_]
          ++ documents_of (tokenizer p) rest
    ∧ (line_arrays (tokenizer p) tail ≠ [] →
       line_arrays (tokenizer p) head_ ≠ [] →
       documents st =
         documents_of (tokenizer p) pre
           ++ [line_arrays (tokenizer p) tail ++ line_arrays (tokenizer p) head_]
           ++ documents_of (tokenizer p) rest).
Proof.
  intros Hncc Hc4 _ Htail Hhead Hpre Hrest.
  eexists. split; [by apply load_and_tokenize_accumulate |].
  cbn [documents]. rewrite accumulate_documents_of.
  assert (Hdocs : documents_of (tokenizer p) ((pre ++ tail) ++ head_ ++ rest) =
            documents_of (tokenizer p) pre
              ++ filter (λ d : document, 0 < length d)
                   [line_arrays (tokenizer p) tail ++ line_arrays (tokenizer p) head_]
              ++ documents_of (tokenizer p) rest).
  { rewrite <- line_arrays_app, <- app_assoc, (app_assoc tail head_ rest).
    apply documents_of_around_run; [| done | done].
    rewrite forallb_app. by rewrite Htail, Hhead. }
  split_and!; [done | done |].
  intros Ht _. rewrite Hdocs. do 2 f_equal.
  rewrite filter_cons, decide_True; [done |].
  rewrite length_app. destruct (line_arrays (tokenizer p) tail); [done | cbn; lia].
Qed.

Lemma documents_span_file_boundary_witness :
  ∃ st,
    load_and_tokenize demo_processor 3 demo_corpus = Some st
    ∧ documents st = demo_documents.
Proof.
  destruct (documents_span_file_boundary demo_processor 3 demo_corpus
              ["a b"; " "] ["ccc"] ["dd"] [""; "e"]
              eq_refl eq_refl ltac:(discriminate) eq_refl eq_refl eq_refl eq_refl)
    as (st & Hload & _ & _ & Hdocs).
  exists st. split; [exact Hload |].
  exact (Hdocs ltac:(discriminate) ltac:(discriminate)).
Defined.

End IngestFacts.

(** ** The Distributed Coordinator *)

Module CoordinatorFacts.
Import Py Train.
Local Open Scope Z_scope.

(** C9: with [d > 0] devices per node, the local device index of rank [r]
    is [r mod d], which lies in [0, d); this is what [setup_training]
    returns as [local_rank]. *)
Theorem local_rank_is_mod (r d : Z) :
  0 < d →
  local_rank r d = Some (r mod d)
  ∧ r - d * (r / d) = r mod d
  ∧ 0 ≤ r mod d < d
  ∧ (∀ args env device_count n_files args' lr,
       SLURM_PROCID env = r → SLURM_GPUS_ON_NODE env = d →
       setup_training args env device_count n_files = Some (args', lr) →
       lr = r mod d).
Proof.
  intros Hd.
  assert (Hmod : r - d * (r / d) = r mod d) by (rewrite Z.mod_eq; lia).
  assert (Hlr : local_rank r d = Some (r mod d)).
  { unfold local_rank, floordiv. destruct (Z.eqb_spec d 0) as [-> | _]; [lia |].
    cbn. by rewrite Hmod. }
  do 3 (split; [first [done | apply Z.mod_pos_bound; lia] |]).
  intros args env device_count n_files args' lr Hr Hgpus Hsetup.
  unfold setup_training in Hsetup. rewrite Hr, Hgpus, Hlr in Hsetup.
  destruct (negb (d =? device_count)); [done |]. cbn in Hsetup.
  destruct (args !! "max_steps"); [| done]. cbn in Hsetup. congruence.
Qed.

Lemma local_rank_is_mod_witness : local_rank 13 8 = Some 5.
Proof. exact (proj1 (local_rank_is_mod 13 8 ltac:(lia))). Defined.

(** *** Agreement on the length of an epoch *)

Lemma foldl_min_spec (xs : list Z) :
  ∀ x, foldl Z.min x xs ∈ x :: xs ∧ ∀ y, y ∈ x :: xs → foldl Z.min x xs ≤ y.
Proof.
  induction xs as [| a xs IHxs]; intros x; cbn.
  - split; [by left |]. intros y Hy. apply elem_of_cons in Hy as [-> | Hy].
    + lia.
    + by apply elem_of_nil in Hy.
  - destruct (IHxs (Z.min x a)) as [Hmin Hle]. split.
    + apply elem_of_cons in Hmin as [Heq | Hmin]; [| by do 2 right].
      rewrite Heq. destruct (Z.min_spec x a) as [[_ ->] | [_ ->]];
        [by left | right; by left].
    + intros y Hy. assert (Hhead : foldl Z.min (Z.min x a) xs ≤ Z.min x a)
        by (apply Hle; by left).
      apply elem_of_cons in Hy as [-> | Hy]; [lia |].
      apply elem_of_cons in Hy as [-> | Hy]; [lia |].
      apply Hle. by right.
Qed.

(** After the reduction every rank holds the same value, the least of the
    tensors. *)
Lemma all_reduce_min_lookup (tensors : list Z) (i : nat) :
  (i < length tensors)%nat →
  ∃ m, all_reduce_min tensors !! i = Some m
       ∧ m ∈ tensors
       ∧ (∀ y, y ∈ tensors → m ≤ y)
       ∧ (∀ j, (j < length tensors)%nat → all_reduce_min tensors !! j = Some m).
Proof.
  intros Hi. destruct tensors as [| t ts]; [cbn in Hi; lia |].
  exists (foldl Z.min t ts). unfold all_reduce_min.
  destruct (foldl_min_spec ts t) as [Hin Hle].
  split_and!; [by apply lookup_replicate_2 | done | done |].
  intros j Hj. by apply lookup_replicate_2.
Qed.

Lemma mapM_total {A B} (f : A → option B) (g : A → B) (l : list A) :
  (∀ x, x ∈ l → f x = Some (g x)) → mapM f l = Some (g <$> l).
Proof.
  induction l as [| x l IH]; intros Hf; [done |].
  cbn. rewrite Hf by (by left). cbn.
  rewrite IH; [done |]. intros y Hy. apply Hf. by right.
Qed.

Section Agreement.

Variable dataset_len : Z → nat.
Variables (args : namespace) (n batch_size world epoch : Z).
Hypothesis Hfiles : getattr_int args "n_training_files" = Some n.
Hypothesis Hn : n ≠ 0.
Hypothesis Hbatch : getattr_int args "batch_size" = Some batch_size.
Hypothesis Hbs : 0 < batch_size.

(** The full batches of the shard of rank [r]. *)
Let batches (r : Z) : Z :=
  Z.of_nat (dataset_len ((r + epoch * world) mod n)) / batch_size.

Lemma train_index_eq (r : Z) :
  train_index args r world epoch = Some ((r + epoch * world) mod n).
Proof.
  unfold train_index, pymod. rewrite Hfiles. cbn.
  by destruct (Z.eqb_spec n 0).
Qed.

Lemma full_batches_eq (r : Z) :
  full_batches dataset_len args r world epoch = Some (batches r).
Proof.
  unfold full_batches, floordiv. rewrite train_index_eq, Hbatch. cbn.
  destruct (Z.eqb_spec batch_size 0); [lia | done].
Qed.

Lemma batches_nonneg (r : Z) : 0 ≤ batches r.
Proof. unfold batches. apply Z.div_pos; lia. Qed.

Lemma load_dataset_reduced (env : environ) :
  get_world_size env = world →
  0 ≤ get_rank env < world →
  ∃ m, load_dataset dataset_len args env epoch =
         Some (dataset_len ((get_rank env + epoch * world) mod n), m)
       ∧ (∀ r, 0 ≤ r < world → m ≤ batches r / 16)
       ∧ (∃ r, 0 ≤ r < world ∧ m = batches r / 16)
       ∧ (∀ env', get_world_size env' = world → 0 ≤ get_rank env' < world →
            snd <$> load_dataset dataset_len args env' epoch = Some m).
Proof.
  intros Hworld Hrank.
  set (tensors := (λ r : nat, batches (Z.of_nat r) / 16) <$> seq 0 (Z.to_nat world)).
  assert (Hlen : length tensors = Z.to_nat world).
  { unfold tensors. by rewrite length_fmap, length_seq. }
  assert (Hmap : mapM (λ r : nat, local_min_length dataset_len args (Z.of_nat r) world epoch)
                   (seq 0 (Z.to_nat world)) = Some tensors).
  { apply mapM_total. intros r _. unfold local_min_length.
    by rewrite full_batches_eq. }
  destruct (all_reduce_min_lookup tensors (Z.to_nat (get_rank env)) ltac:(lia))
    as (m & Hm & Hin & Hle & Hall).
  assert (Hload : ∀ env', get_world_size env' = world → 0 ≤ get_rank env' < world →
            load_dataset dataset_len args env' epoch =
              Some (dataset_len ((get_rank env' + epoch * world) mod n), m)).
  { intros env' Hw' Hr'. unfold load_dataset.
    rewrite Hw', train_index_eq, Hmap. cbn.
    rewrite (Hall (Z.to_nat (get_rank env'))) by lia. done. }
  exists m. split_and!.
  - by apply Hload.
  - intros r Hr. apply Hle. unfold tensors. apply list_elem_of_fmap.
    exists (Z.to_nat r). split; [by rewrite Z2Nat.id by lia |].
    apply elem_of_seq. lia.
  - unfold tensors in Hin. apply list_elem_of_fmap in Hin as (r & -> & Hr%elem_of_seq).
    exists (Z.of_nat r). split; [lia | done].
  - intros env' Hw' Hr'. by rewrite Hload.
Qed.

Lemma least_batches :
  0 < world →
  ∃ r0, 0 ≤ r0 < world ∧ ∀ r, 0 ≤ r < world → batches r0 ≤ batches r.
Proof.
  intros Hworld.
  set (counts := (λ r : nat, batches (Z.of_nat r)) <$> seq 0 (Z.to_nat world)).
  destruct (all_reduce_min_lookup counts 0) as (b & _ & Hb & Hle & _).
  { unfold counts. rewrite length_fmap, length_seq. lia. }
  unfold counts in Hb. apply list_elem_of_fmap in Hb as (r0 & -> & Hr0%elem_of_seq).
  exists (Z.of_nat r0). split; [lia |]. intros r Hr. apply Hle.
  unfold counts. apply list_elem_of_fmap.
  exists (Z.to_nat r). split; [by rewrite Z2Nat.id by lia |].
  apply elem_of_seq. lia.
Qed.

End Agreement.

(** C2, as the code has it: every rank brings the floor of a sixteenth of
    the full batches of its shard ([len // batch_size // 16]); the
    reduction leaves on every rank the least of these, which is the floor
    of a sixteenth of the least count of full batches and is at most every
    rank's count.  For counts 120, 115 and 130 on three ranks every rank
    gets 7. *)
Theorem load_dataset_agreement (dataset_len : Z → nat) (args : namespace)
  (env : environ) (epoch n batch_size : Z) :
  getattr_int args "n_training_files" = Some n →
  n ≠ 0 →
  getattr_int args "batch_size" = Some batch_size →
  0 < batch_size →
  0 ≤ get_rank env < get_world_size env →
  ∃ m data_len,
    load_dataset dataset_len args env epoch = Some (data_len, m)
    ∧ (∀ r, 0 ≤ r < get_world_size env →
         ∃ b, full_batches dataset_len args r (get_world_size env) epoch = Some b
              ∧ m ≤ b / 16 ∧ m ≤ b)
    ∧ (∃ r b,
         0 ≤ r < get_world_size env
         ∧ full_batches dataset_len args r (get_world_size env) epoch = Some b
         ∧ m = b / 16
         ∧ ∀ r' b', 0 ≤ r' < get_world_size env →
             full_batches dataset_len args r' (get_world_size env) epoch = Some b' →
             b ≤ b')
    ∧ (∀ env', get_world_size env' = get_world_size env →
         0 ≤ get_rank env' < get_world_size env →
         snd <$> load_dataset dataset_len args env' epoch = Some m)
    ∧ (∀ r, 0 ≤ r < 3 →
         snd <$> load_dataset Reference.scenario_lengths Reference.scenario_args
                   (Reference.scenario_env r) 0 = Some 7).
Proof.
  intros Hfiles Hn Hbatch Hbs Hrank.
  destruct (load_dataset_reduced dataset_len args n batch_size (get_world_size env)
              epoch Hfiles Hn Hbatch Hbs env eq_refl Hrank)
    as (m & Hload & Hle & (r1 & Hr1 & Hm) & Hall).
  destruct (least_batches dataset_len n batch_size (get_world_size env) epoch
              ltac:(lia)) as (r0 & Hr0 & Hleast).
  pose proof (full_batches_eq dataset_len args n batch_size (get_world_size env)
                epoch Hfiles Hn Hbatch Hbs) as Hfull.
  pose proof (batches_nonneg dataset_len n batch_size (get_world_size env) epoch Hbs)
    as Hnonneg.
  exists m, (dataset_len ((get_rank env + epoch * get_world_size env) mod n)).
  split_and!.
  - done.
  - intros r Hr. eexists. split; [apply Hfull |].
    pose proof (Hle r Hr). pose proof (Hnonneg r).
    split; [done |]. etrans; [done |].
    apply Z.div_le_upper_bound; lia.
  - exists r0. eexists. split_and!; [lia | lia | apply Hfull | |].
    + apply Z.le_antisymm; [by apply Hle |].
      rewrite Hm. apply Z.div_le_mono; [lia | by apply Hleast].
    + intros r' b' Hr' Hb'. rewrite Hfull in Hb'. injection Hb' as <-.
      by apply Hleast.
  - done.
  - intros r Hr. assert (r = 0 ∨ r = 1 ∨ r = 2) as [-> | [-> | ->]] by lia;
      by vm_compute.
Qed.

Lemma load_dataset_agreement_witness :
  ∃ m data_len,
    load_dataset Reference.scenario_lengths Reference.scenario_args
      (Reference.scenario_env 1) 0 = Some (data_len, m).
Proof.
  destruct (load_dataset_agreement Reference.scenario_lengths Reference.scenario_args
              (Reference.scenario_env 1) 0 3 32 eq_refl ltac:(lia) eq_refl
              ltac:(lia) ltac:(cbn; lia))
    as (m & data_len & Hload & _).
  exists m, data_len. exact Hload.
Defined.

(** C2, as the claim states it, fails: with 120, 115 and 130 full batches
    on the three ranks the agreed length is 7 and not 115. *)
Lemma load_dataset_not_least_full_batches :
  full_batches Reference.scenario_lengths Reference.scenario_args 0 3 0 = Some 120
  ∧ full_batches Reference.scenario_lengths Reference.scenario_args 1 3 0 = Some 115
  ∧ full_batches Reference.scenario_lengths Reference.scenario_args 2 3 0 = Some 130
  ∧ snd <$> load_dataset Reference.scenario_lengths Reference.scenario_args
              (Reference.scenario_env 0) 0 = Some 7
  ∧ snd <$> load_dataset Reference.scenario_lengths Reference.scenario_args
              (Reference.scenario_env 0) 0 ≠ Some 115.
Proof. split_and!; by vm_compute. Qed.

(** C7: the generator that shuffles the data of rank [r] in epoch [e] is
    seeded with [s + r + e * w], [s] being [args.seed] and [w] the world
    size; [training_epoch] runs its loop on that loader; and within a
    group of [w] ranks two different pairs of rank and epoch never get the
    same seed. *)
Theorem epoch_seed (args : namespace) (env : environ) (data_len : nat)
  (step epoch s batch_size : Z) :
  getattr_int args "seed" = Some s →
  getattr_int args "batch_size" = Some batch_size →
  0 < batch_size →
  epoch_dataloader data_len args env step epoch =
    Some {| n_batches := Z.to_nat (Z.of_nat data_len / batch_size);
            generator_seed := s + get_rank env + epoch * get_world_size env |}
  ∧ (∀ learner (update : Z → Z → learner → learner) budget (st : run_state learner),
       global_step st = step →
       training_epoch update data_len args env epoch budget st =
         step_loop update args (s + get_rank env + epoch * get_world_size env)
           (Z.to_nat (Z.of_nat data_len / batch_size)) 0 budget st)
  ∧ (∀ r e r' e',
       0 ≤ r < get_world_size env → 0 ≤ r' < get_world_size env →
       s + r + e * get_world_size env = s + r' + e' * get_world_size env →
       r = r' ∧ e = e').
Proof.
  intros Hseed Hbs Hpos.
  assert (Hloader : epoch_dataloader data_len args env step epoch =
            Some {| n_batches := Z.to_nat (Z.of_nat data_len / batch_size);
                    generator_seed := s + get_rank env + epoch * get_world_size env |}).
  { unfold epoch_dataloader, create_train_dataloader. rewrite Hseed, Hbs. cbn.
    destruct (Z.leb_spec batch_size 0); [lia | done]. }
  split_and!; [done | |].
  - intros learner update budget st <-. unfold training_epoch. by rewrite Hloader.
  - intros r e r' e' Hr Hr' Heq.
    assert (e = e') as ->; [| lia].
    destruct (Z.lt_trichotomy e e') as [Hlt | [-> | Hlt]]; [| done |].
    + assert (get_world_size env ≤ (e' - e) * get_world_size env) by nia. lia.
    + assert (get_world_size env ≤ (e - e') * get_world_size env) by nia. lia.
Qed.

Lemma epoch_seed_witness :
  epoch_dataloader 1000 {["seed" := VInt 42; "batch_size" := VInt 32]}
    {| WORLD_SIZE := 16; SLURM_PROCID := 5; SLURM_GPUS_ON_NODE := 8 |} 0 3 =
    Some {| n_batches := 31; generator_seed := 95 |}.
Proof.
  exact (proj1 (epoch_seed {["seed" := VInt 42; "batch_size" := VInt 32]}
                  {| WORLD_SIZE := 16; SLURM_PROCID := 5; SLURM_GPUS_ON_NODE := 8 |}
                  1000 0 3 42 32 eq_refl eq_refl ltac:(lia))).
Defined.

End CoordinatorFacts.

(** ** Checkpoints: publication and resume *)

Module CheckpointFacts.
Import FS Train.
Local Open Scope Z_scope.

Lemma string_app_length (s t : string) :
  String.length (s +:+ t) = (String.length s + String.length t)%nat.
Proof.
  induction s as [| c s IH]; [done |].
  change (String c s +:+ t) with (String c (s +:+ t)). cbn. by rewrite IH.
Qed.

Lemma backup_path_fresh (path : string) : path +:+ "_tmp" ≠ path.
Proof.
  intros Heq. apply (f_equal String.length) in Heq.
  rewrite string_app_length in Heq. cbn in Heq. lia.
Qed.

Section Publication.

Context {learner : Type}.
Variables (path : string) (old new : checkpoint learner).
Variable fs : gmap string (file (checkpoint learner)).
Variable env : environ.
Hypothesis Hmain : is_main_process env = true.
Hypothesis Hold : fs !! path = Some (Whole old).

(** The disk after the rename, after the new file is opened, and at the
    end. *)
Lemma crash_after_rename :
  crash_after 1 (save_steps path new env) fs =
    <[path +:+ "_tmp" := Whole old]> (delete path fs).
Proof.
  unfold crash_after, save_steps. rewrite Hmain. cbn.
  unfold exists_, rename. rewrite bool_decide_true by (by rewrite Hold).
  by rewrite Hold.
Qed.

Lemma crash_after_open :
  crash_after 2 (save_steps path new env) fs =
    <[path := Partial]> (<[path +:+ "_tmp" := Whole old]> (delete path fs)).
Proof.
  unfold crash_after, save_steps. rewrite Hmain. cbn.
  unfold exists_, rename, open_wb. rewrite bool_decide_true by (by rewrite Hold).
  by rewrite Hold.
Qed.

Lemma crash_after_write (k : nat) :
  (3 ≤ k)%nat →
  crash_after k (save_steps path new env) fs =
    <[path := Whole new]>
      (<[path := Partial]> (<[path +:+ "_tmp" := Whole old]> (delete path fs))).
Proof.
  intros Hk. unfold crash_after, save_steps. rewrite Hmain.
  rewrite take_ge by (cbn; lia). cbn.
  unfold exists_, rename, open_wb, finish_write.
  rewrite bool_decide_true by (by rewrite Hold).
  by rewrite Hold.
Qed.

Lemma backup_survives (k : nat) :
  (1 ≤ k)%nat →
  load (path +:+ "_tmp") (crash_after k (save_steps path new env) fs) = Some old.
Proof.
  intros Hk. pose proof (backup_path_fresh path) as Hne. unfold load.
  destruct k as [| [| [| k]]]; [lia | | |].
  - by rewrite crash_after_rename, lookup_insert_eq.
  - by rewrite crash_after_open, lookup_insert_ne, lookup_insert_eq.
  - rewrite crash_after_write by lia.
    do 2 rewrite lookup_insert_ne by done. by rewrite lookup_insert_eq.
Qed.

Lemma unfinished_not_loadable (k : nat) :
  (1 ≤ k < 3)%nat →
  load path (crash_after k (save_steps path new env) fs) = None.
Proof.
  intros Hk. pose proof (backup_path_fresh path) as Hne. unfold load.
  destruct k as [| [| [| k]]]; [lia | | | lia].
  - by rewrite crash_after_rename, lookup_insert_ne, lookup_delete_eq.
  - by rewrite crash_after_open, lookup_insert_eq.
Qed.

Lemma finished_loadable :
  load path (run (save_steps path new env) fs) = Some new.
Proof.
  pose proof (crash_after_write 3 ltac:(lia)) as Hdone. unfold crash_after in Hdone.
  rewrite take_ge in Hdone by (unfold save_steps; rewrite Hmain; cbn; lia).
  rewrite Hdone. unfold load. by rewrite lookup_insert_eq.
Qed.

End Publication.

(** C4, as the code has it: when a whole checkpoint is at the fixed path,
    [save] on the designated process first renames it to the backup name
    and only then writes the new one.  From the rename on, whatever the point at which the process
    stops, the backup holds the previous checkpoint whole, and resuming
    from it gives its epoch plus one and its global step; until the write
    is complete nothing can be loaded from the fixed path; when [save]
    returns, the fixed path holds the new checkpoint.  A process that is
    not the designated one (rank 0) leaves the disk alone. *)
Theorem save_keeps_previous_checkpoint {learner : Type} (epoch : Z)
  (args : namespace) (env : environ) (st : run_state learner)
  (output_dir : string) (old : checkpoint learner) :
  getattr_str args "output_dir" = Some output_dir →
  disk st !! (output_dir +:+ "/model.bin") = Some (Whole old) →
  is_main_process env = true →
  let path := output_dir +:+ "/model.bin" in
  let new := checkpoint_of epoch args st in
  (∀ k, (1 ≤ k)%nat →
     load (path +:+ "_tmp") (crash_after k (save_steps path new env) (disk st))
       = Some old)
  ∧ (∀ k, (1 ≤ k < 3)%nat →
       load path (crash_after k (save_steps path new env) (disk st)) = None)
  ∧ (∃ st', save epoch args env st = Some (path, st')
            ∧ disk st' = run (save_steps path new env) (disk st)
            ∧ load path (disk st') = Some new
            ∧ load (path +:+ "_tmp") (disk st') = Some old)
  ∧ (∀ k parsed env' generate_id, (1 ≤ k)%nat →
       parsed !! "checkpoint_path" = Some (VStr (path +:+ "_tmp")) →
       startup parsed env' generate_id
         (crash_after k (save_steps path new env) (disk st)) =
         Some (ck_args old ∪ parsed, Some old, ck_epoch old + 1, ck_global_step old))
  ∧ (∀ env' k, is_main_process env' = false →
       crash_after k (save_steps path new env') (disk st) = disk st)
  ∧ (∀ env', is_main_process env' = true ↔ SLURM_PROCID env' = 0).
Proof.
  intros Hdir Hold Hmain path new. split_and!.
  - intros k Hk. by apply (backup_survives path old).
  - intros k Hk. by apply (unfinished_not_loadable path old).
  - unfold save. rewrite Hdir. cbn [mbind option_bind]. eexists.
    split; [reflexivity |]. cbn [disk]. split_and!.
    + done.
    + by apply (finished_loadable path old).
    + pose proof (backup_survives path old new (disk st) env Hmain Hold 3 ltac:(lia))
        as Hb.
      unfold crash_after in Hb.
      rewrite take_ge in Hb by (unfold save_steps; rewrite Hmain; cbn; lia).
      exact Hb.
  - intros k parsed env' generate_id Hk Hpath. unfold startup. rewrite Hpath.
    rewrite (backup_survives path old new (disk st) env Hmain Hold k Hk). done.
  - intros env' k Hother. unfold crash_after, save_steps. rewrite Hother.
    by rewrite take_nil.
  - intros env'. unfold is_main_process, get_rank. apply Z.eqb_eq.
Qed.

Lemma save_keeps_previous_checkpoint_witness :
  load "ckpt/model.bin_tmp"
    (crash_after 2
       (save_steps "ckpt/model.bin"
          (checkpoint_of 3 Reference.demo_args Reference.demo_state)
          (Reference.scenario_env 0))
       (disk Reference.demo_state))
    = Some Reference.demo_old.
Proof.
  exact (proj1 (save_keeps_previous_checkpoint 3 Reference.demo_args
                  (Reference.scenario_env 0) Reference.demo_state "ckpt"
                  Reference.demo_old eq_refl eq_refl eq_refl)
               2%nat ltac:(lia)).
Defined.

(** C4, as the claim states it, fails.  [save] at the end of epoch 3
    stops after it has opened the new file: a file exists at the fixed
    path, truncated, and the backup holds the checkpoint of epoch 2, from
    which the run resumes.  The next [save] finds a file at the fixed path
    and renames it aside like any other, over the backup: a crash after
    the rename or after the open leaves nothing that can be loaded, at
    either path. *)
Lemma save_renames_truncated_file_over_backup :
  exists_ "ckpt/model.bin" Reference.crashed_disk = true
  ∧ load "ckpt/model.bin_tmp" Reference.crashed_disk = Some Reference.demo_old
  ∧ startup (<["checkpoint_path" := VStr "ckpt/model.bin_tmp"]> Reference.demo_args)
      (Reference.scenario_env 0) "id" Reference.crashed_disk
    = Some (ck_args Reference.demo_old
              ∪ <["checkpoint_path" := VStr "ckpt/model.bin_tmp"]> Reference.demo_args,
            Some Reference.demo_old, 3, 230)
  ∧ load "ckpt/model.bin_tmp"
      (crash_after 1
         (save_steps "ckpt/model.bin"
            (checkpoint_of 3 Reference.demo_args Reference.resumed_state)
            (Reference.scenario_env 0))
         Reference.crashed_disk) = None
  ∧ load "ckpt/model.bin"
      (crash_after 1
         (save_steps "ckpt/model.bin"
            (checkpoint_of 3 Reference.demo_args Reference.resumed_state)
            (Reference.scenario_env 0))
         Reference.crashed_disk) = None
  ∧ load "ckpt/model.bin_tmp"
      (crash_after 2
         (save_steps "ckpt/model.bin"
            (checkpoint_of 3 Reference.demo_args Reference.resumed_state)
            (Reference.scenario_env 0))
         Reference.crashed_disk) = None
  ∧ load "ckpt/model.bin"
      (crash_after 2
         (save_steps "ckpt/model.bin"
            (checkpoint_of 3 Reference.demo_args Reference.resumed_state)
            (Reference.scenario_env 0))
         Reference.crashed_disk) = None.
Proof. split_and!; by vm_compute. Qed.

(** The same for any path and any checkpoints: a file left truncated at
    the fixed path by an earlier crash is renamed over the backup, and the
    checkpoint that was there is gone. *)
Remark truncated_file_replaces_backup {learner : Type} (path : string)
  (good new : checkpoint learner) (env : environ) :
  is_main_process env = true →
  load (path +:+ "_tmp")
    (crash_after 2 (save_steps path new env)
       (<[path := Partial]> {[path +:+ "_tmp" := Whole good]})) = None.
Proof.
  intros Hmain. unfold crash_after, save_steps. rewrite Hmain. cbn.
  unfold exists_, rename, open_wb, load.
  rewrite bool_decide_true by (by rewrite lookup_insert_eq).
  rewrite lookup_insert_eq.
  rewrite lookup_insert_ne by (intros Heq; by apply (backup_path_fresh path)).
  by rewrite lookup_insert_eq.
Qed.

(** C5: resuming from a checkpoint that can be loaded starts at the saved
    epoch plus one and at the saved global step, and resolves [args] by
    updating the parsed namespace with the saved one: an attribute the
    checkpoint has takes the checkpoint's value, any other keeps the parsed
    value. *)
Theorem startup_resumes {learner : Type} (args : namespace) (env : environ)
  (generate_id path : string) (fs : gmap string (file (checkpoint learner)))
  (ck : checkpoint learner) :
  args !! "checkpoint_path" = Some (VStr path) →
  load path fs = Some ck →
  ∃ args',
    startup args env generate_id fs =
      Some (args', Some ck, ck_epoch ck + 1, ck_global_step ck)
    ∧ (∀ name v, ck_args ck !! name = Some v → args' !! name = Some v)
    ∧ (∀ name, ck_args ck !! name = None → args' !! name = args !! name).
Proof.
  intros Hpath Hload. exists (ck_args ck ∪ args). split_and!.
  - unfold startup. by rewrite Hpath, Hload.
  - intros name v Hv. by apply lookup_union_Some_l.
  - intros name Hnone. by apply lookup_union_r.
Qed.

Lemma startup_resumes_witness :
  ∃ args',
    startup Reference.demo_args (Reference.scenario_env 0) "id"
      (disk Reference.demo_state) = Some (args', Some Reference.demo_old, 3, 230)
    ∧ args' !! "seed" = Some (VInt 7)
    ∧ args' !! "batch_size" = Some (VInt 32).
Proof.
  destruct (startup_resumes Reference.demo_args (Reference.scenario_env 0) "id"
              "ckpt/model.bin" (disk Reference.demo_state) Reference.demo_old
              eq_refl eq_refl)
    as (args' & Hstart & Hsaved & Hparsed).
  exists args'. split; [exact Hstart |]. split.
  - exact (Hsaved "seed" (VInt 7) eq_refl).
  - exact (eq_trans (Hparsed "batch_size" eq_refl) eq_refl).
Defined.

End CheckpointFacts.

(** ** The Training Loop Driver *)

Module DriverFacts.
Import FS Train Reference CoordinatorFacts.
Local Open Scope Z_scope.

Lemma step_events_cons (step : Z) (count : nat) :
  step_events step (S count) = EvStep (step + 1) :: step_events (step + 1) count.
Proof.
  unfold step_events. cbn [seq fmap list_fmap]. f_equal.
  rewrite <- fmap_S_seq, <- list_fmap_compose.
  apply list_fmap_ext. intros _ k _. cbn. f_equal. lia.
Qed.

Section Loop.

Context {learner : Type}.
Variable update : Z → Z → learner → learner.
Variables (args : namespace) (max_steps : Z).
Hypothesis Hmax : getattr_int args "device_max_steps" = Some max_steps.

(** The loop never raises, does not touch the disk, and runs the number of
    steps of the closed form. *)
Lemma step_loop_steps (seed budget : Z) (batches : nat) :
  ∀ (local_step : Z) (st : run_state learner),
  ∃ st',
    step_loop update args seed batches local_step budget st = Some st'
    ∧ global_step st' =
        global_step st
          + epoch_steps batches (max_steps - global_step st) (budget - local_step)
    ∧ disk st' = disk st
    ∧ trace st' =
        trace st
          ++ step_events (global_step st)
               (Z.to_nat (epoch_steps batches (max_steps - global_step st)
                            (budget - local_step))).
Proof.
  unfold epoch_steps.
  induction batches as [| rest IH]; intros local_step st.
  - exists st. cbn [step_loop]. split_and!; [done | lia | done |].
    replace (Z.to_nat _) with 0%nat by lia. cbn. by rewrite app_nil_r.
  - cbn [step_loop]. rewrite Hmax. cbn [mbind option_bind].
    destruct ((global_step (train_step update seed local_step st) >=? max_steps)
              || (local_step >=? budget - 1)) eqn:Hexit.
    + eexists. split; [reflexivity |]. cbn [train_step global_step disk trace] in *.
      apply orb_true_iff in Hexit. rewrite !Z.geb_le in Hexit.
      assert (Hone : Z.min (Z.of_nat (S rest))
                       (Z.max 1 (Z.min (max_steps - global_step st)
                                   (budget - local_step))) = 1) by lia.
      rewrite Hone. split_and!; [done | done |].
      change (Z.to_nat 1) with 1%nat. by rewrite step_events_cons.
    + destruct (IH (local_step + 1) (train_step update seed local_step st))
        as (st' & Hrun & Hstep & Hdisk & Htrace).
      exists st'. split; [done |].
      cbn [train_step global_step disk trace] in *.
      apply orb_false_iff in Hexit as [Hexit1 Hexit2].
      rewrite Z.geb_leb in Hexit1, Hexit2. apply Z.leb_gt in Hexit1, Hexit2.
      set (inner := Z.min (Z.of_nat rest)
                      (Z.max 1 (Z.min (max_steps - (global_step st + 1))
                                  (budget - (local_step + 1))))) in *.
      assert (Hcount : Z.min (Z.of_nat (S rest))
                         (Z.max 1 (Z.min (max_steps - global_step st)
                                     (budget - local_step))) = 1 + inner)
        by (unfold inner; lia).
      rewrite Hcount. split_and!; [lia | done |].
      rewrite Htrace, <- app_assoc. f_equal.
      replace (Z.to_nat (1 + inner)) with (S (Z.to_nat inner)) by (unfold inner; lia).
      by rewrite step_events_cons.
Qed.

End Loop.

Section Epochs.

Variable dataset_len : Z → nat.
Context {learner : Type}.
Variable update : Z → Z → learner → learner.
Variables (args : namespace) (env : environ).
Variables (n batch_size seed max_steps : Z) (output_dir : string).
Hypothesis Hfiles : getattr_int args "n_training_files" = Some n.
Hypothesis Hn : 0 < n.
Hypothesis Hbatch : getattr_int args "batch_size" = Some batch_size.
Hypothesis Hbs : 0 < batch_size.
Hypothesis Hseed : getattr_int args "seed" = Some seed.
Hypothesis Hmax : getattr_int args "device_max_steps" = Some max_steps.
Hypothesis Hdir : getattr_str args "output_dir" = Some output_dir.
Hypothesis Hrank : 0 ≤ get_rank env < get_world_size env.
(** Every shard gives every rank a budget of at least one step. *)
Hypothesis Hshards :
  ∀ idx, 0 ≤ idx < n → 16 * batch_size ≤ Z.of_nat (dataset_len idx).

Lemma shard_batches (r epoch : Z) :
  16 ≤ Z.of_nat (dataset_len ((r + epoch * get_world_size env) mod n)) / batch_size.
Proof.
  apply Z.div_le_lower_bound; [done |].
  rewrite Z.mul_comm. apply Hshards. apply Z.mod_pos_bound. lia.
Qed.

(** One turn of the loop over the epochs, started below the maximum. *)
Lemma epoch_turn (epoch : Z) (st : run_state learner) :
  global_step st < max_steps →
  ∃ data_len budget st1 st2,
    load_dataset dataset_len args env epoch = Some (data_len, budget)
    ∧ 1 ≤ budget
    ∧ training_epoch update data_len args env epoch budget st = Some st1
    ∧ global_step st1 =
        global_step st + Z.min (max_steps - global_step st) budget
    ∧ trace st1 =
        trace st
          ++ step_events (global_step st)
               (Z.to_nat (Z.min (max_steps - global_step st) budget))
    ∧ save epoch args env st1 = Some (output_dir +:+ "/model.bin", st2)
    ∧ global_step st2 = global_step st1
    ∧ trace st2 = trace st1 ++ [EvSave epoch (global_step st1)]
    ∧ (∀ fuel,
         epochs dataset_len update (S fuel) args env epoch st =
           if global_step st2 >=? max_steps then Some st2
           else epochs dataset_len update fuel args env (epoch + 1) st2).
Proof.
  intros Hbelow.
  destruct (load_dataset_reduced dataset_len args n batch_size (get_world_size env)
              epoch Hfiles ltac:(lia) Hbatch Hbs env eq_refl Hrank)
    as (budget & Hload & Hle & (r1 & Hr1 & Hbudget) & _).
  set (data_len := dataset_len ((get_rank env + epoch * get_world_size env) mod n))
    in *.
  assert (Hpos : 1 ≤ budget).
  { rewrite Hbudget. apply Z.div_le_lower_bound; [lia |]. apply shard_batches. }
  assert (Hfit : budget ≤ Z.of_nat data_len / batch_size).
  { etrans; [apply (Hle (get_rank env) Hrank) |].
    apply Z.div_le_upper_bound; [lia |].
    assert (0 ≤ Z.of_nat data_len / batch_size) by (apply Z.div_pos; lia).
    fold data_len. lia. }
  destruct (step_loop_steps update args max_steps Hmax
              (seed + get_rank env + epoch * get_world_size env) budget
              (Z.to_nat (Z.of_nat data_len / batch_size)) 0 st)
    as (st1 & Hrun & Hstep & _ & Htrace).
  assert (Hcount : epoch_steps (Z.to_nat (Z.of_nat data_len / batch_size))
                     (max_steps - global_step st) (budget - 0)
                   = Z.min (max_steps - global_step st) budget).
  { unfold epoch_steps. rewrite Z2Nat.id by lia. lia. }
  rewrite Hcount in Hstep, Htrace.
  assert (Htrain : training_epoch update data_len args env epoch budget st = Some st1).
  { unfold training_epoch, epoch_dataloader, create_train_dataloader.
    rewrite Hseed, Hbatch. cbn [mbind option_bind].
    destruct (Z.leb_spec batch_size 0); [lia |]. exact Hrun. }
  assert (Hsave : save epoch args env st1 =
            Some (output_dir +:+ "/model.bin",
                  {| weights := weights st1;
                     global_step := global_step st1;
                     disk := run (save_steps (output_dir +:+ "/model.bin")
                                    (checkpoint_of epoch args st1) env) (disk st1);
                     trace := trace st1 ++ [EvSave epoch (global_step st1)] |})).
  { unfold save. by rewrite Hdir. }
  eexists data_len, budget, st1, _.
  split_and!; [done | done | done | done | done | exact Hsave | done | done |].
  intros fuel. cbn [epochs]. rewrite Hload. cbn [mbind option_bind].
  rewrite Htrain. cbn [mbind option_bind]. rewrite Hsave. cbn [mbind option_bind].
  by rewrite Hmax.
Qed.

(** The loop over the epochs ends, at the maximum exactly. *)
Lemma epochs_terminate (fuel : nat) :
  ∀ (epoch : Z) (st : run_state learner),
  global_step st < max_steps →
  (Z.to_nat (max_steps - global_step st) ≤ fuel)%nat →
  ∃ final,
    epochs dataset_len update fuel args env epoch st = Some final
    ∧ global_step final = max_steps.
Proof.
  induction fuel as [| fuel IH]; intros epoch st Hbelow Hfuel; [lia |].
  destruct (epoch_turn epoch st Hbelow)
    as (data_len & budget & st1 & st2 & _ & Hpos & _ & Hstep & _ & _ & Hsame & _ & Hturn).
  rewrite Hturn.
  destruct (Z.geb_spec (global_step st2) max_steps) as [Hdone | Hmore].
  - exists st2. split; [done | lia].
  - apply IH; lia.
Qed.

End Epochs.

(** C8, as the code has it: when every shard gives a budget of at least
    one step (sixteen full batches or more) and an epoch starts below the
    maximum, the epoch runs exactly [min (max_steps - step) budget]
    optimizer steps, [budget] being the agreed length, then saves a
    checkpoint, and the loop over the epochs stops exactly when the global
    step has reached the maximum and goes on to the next epoch otherwise;
    with these shards it does stop, with the global step at the maximum. *)
Theorem epoch_runs_agreed_steps (dataset_len : Z → nat) {learner : Type}
  (update : Z → Z → learner → learner) (args : namespace) (env : environ)
  (n batch_size seed max_steps : Z) (output_dir : string)
  (epoch : Z) (st : run_state learner) :
  getattr_int args "n_training_files" = Some n →
  0 < n →
  getattr_int args "batch_size" = Some batch_size →
  0 < batch_size →
  getattr_int args "seed" = Some seed →
  getattr_int args "device_max_steps" = Some max_steps →
  getattr_str args "output_dir" = Some output_dir →
  0 ≤ get_rank env < get_world_size env →
  (∀ idx, 0 ≤ idx < n → 16 * batch_size ≤ Z.of_nat (dataset_len idx)) →
  global_step st < max_steps →
  (∃ data_len budget st1 st2,
     load_dataset dataset_len args env epoch = Some (data_len, budget)
     ∧ 1 ≤ budget
     ∧ training_epoch update data_len args env epoch budget st = Some st1
     ∧ global_step st1 =
         global_step st + Z.min (max_steps - global_step st) budget
     ∧ trace st1 =
         trace st
           ++ step_events (global_step st)
                (Z.to_nat (Z.min (max_steps - global_step st) budget))
     ∧ save epoch args env st1 = Some (output_dir +:+ "/model.bin", st2)
     ∧ global_step st2 = global_step st1
     ∧ trace st2 = trace st1 ++ [EvSave epoch (global_step st1)]
     ∧ (∀ fuel,
          epochs dataset_len update (S fuel) args env epoch st =
            if global_step st2 >=? max_steps then Some st2
            else epochs dataset_len update fuel args env (epoch + 1) st2))
  ∧ (∀ fuel, (Z.to_nat (max_steps - global_step st) ≤ fuel)%nat →
       ∃ final,
         epochs dataset_len update fuel args env epoch st = Some final
         ∧ global_step final = max_steps).
Proof.
  intros Hfiles Hn Hbatch Hbs Hseed Hmax Hdir Hrank Hshards Hbelow. split.
  - by apply (epoch_turn dataset_len update args env n batch_size seed max_steps
                output_dir).
  - intros fuel Hfuel.
    by apply (epochs_terminate dataset_len update args env n batch_size seed
                max_steps output_dir).
Qed.

Lemma epoch_runs_agreed_steps_witness :
  ∃ final,
    epochs scenario_lengths (λ _ _ u, u) 20 scenario_run_args (scenario_env 1) 0
      fresh_state = Some final
    ∧ global_step final = 20.
Proof.
  exact (proj2 (epoch_runs_agreed_steps scenario_lengths (λ _ _ u, u)
                  scenario_run_args (scenario_env 1) 3 32 42 20 "ckpt" 0 fresh_state
                  eq_refl ltac:(lia) eq_refl ltac:(lia) eq_refl eq_refl eq_refl
                  ltac:(cbn; lia)
                  ltac:(intros idx Hidx;
                        assert (idx = 0 ∨ idx = 1 ∨ idx = 2) as [-> | [-> | ->]]
                          by lia; by vm_compute)
                  ltac:(cbn; lia))
               20%nat ltac:(cbn; lia)).
Defined.

(** C8, as the claim states it, fails: rank 0 has five batches, the agreed
    budget is 0, and the epoch still runs one step; the claim gives
    [min (10 - 0) 0 = 0]. *)
Lemma epoch_steps_on_empty_budget :
  load_dataset small_lengths small_args small_env 0 = Some (160%nat, 0)
  ∧ global_step <$> training_epoch (λ _ _ u, u) 160 small_args small_env 0 0
                      fresh_state = Some 1
  ∧ 1 ≠ 0 + Z.min (10 - 0) 0.
Proof. split_and!; by vm_compute. Qed.

End DriverFacts.

(** * Further properties *)

(** ** The Tokenizing Ingest: errors, counters and shape of the result *)

Module IngestMore.
Import Py FS NoTokenize Reference IngestFacts.

Lemma load_and_tokenize_None (p : Processor) (RANK : Z)
  (fs : gmap string (list string)) :
  load_and_tokenize p RANK fs = None
  ↔ fs !! ncc_path p RANK = None ∨ fs !! c4_path p RANK = None.
Proof.
  split.
  - intros Hfail.
    destruct (fs !! ncc_path p RANK) as [ncc |] eqn:Hncc; [| by left].
    destruct (fs !! c4_path p RANK) as [c4 |] eqn:Hc4; [| by right].
    by rewrite (load_and_tokenize_accumulate p RANK fs ncc c4) in Hfail.
  - intros Hmissing. unfold load_and_tokenize. cbn [read_paths].
    destruct (fs !! ncc_path p RANK) as [ncc |] eqn:Hncc; [| done].
    destruct Hmissing as [? | Hc4]; [done |].
    cbn [mbind option_bind].
    destruct (read_lines (tokenizer p) _ ncc); [| done].
    cbn [mbind option_bind]. by rewrite Hc4.
Qed.

Lemma readable_None (raw : gmap string corpus_file) (path : string) :
  readable raw !! path = None
  ↔ raw !! path = None ∨ raw !! path = Some Corrupt.
Proof.
  unfold readable. rewrite lookup_omap.
  destruct (raw !! path) as [[lines |] |]; cbn;
    (split; [done || (by left) || (by right) | by intros [? | ?]]).
Qed.

(** X1: [load_and_tokenize] raises exactly when one of the two corpus
    files of the rank is missing or cannot be read to its end (corrupt
    gzip data, undecodable text); once both have been read, nothing in the
    lines or in the tokenizer can make it fail. *)
Theorem load_and_tokenize_fails_iff_unreadable (p : Processor) (RANK : Z)
  (raw : gmap string corpus_file) :
  load_and_tokenize p RANK (readable raw) = None
  ↔ raw !! ncc_path p RANK = None ∨ raw !! ncc_path p RANK = Some Corrupt
    ∨ raw !! c4_path p RANK = None ∨ raw !! c4_path p RANK = Some Corrupt.
Proof.
  rewrite load_and_tokenize_None, !readable_None. tauto.
Qed.

Lemma load_and_tokenize_Some_inv (p : Processor) (RANK : Z)
  (fs : gmap string (list string)) (st : ingest_state) :
  load_and_tokenize p RANK fs = Some st →
  ∃ ncc c4,
    fs !! ncc_path p RANK = Some ncc ∧ fs !! c4_path p RANK = Some c4
    ∧ documents st = documents_of (tokenizer p) (ncc ++ c4)
    ∧ total_tokens st = token_count (tokenizer p) (ncc ++ c4).
Proof.
  intros Hload.
  destruct (fs !! ncc_path p RANK) as [ncc |] eqn:Hncc; last first.
  { assert (load_and_tokenize p RANK fs = None) as Hnone
      by (apply load_and_tokenize_None; by left).
    congruence. }
  destruct (fs !! c4_path p RANK) as [c4 |] eqn:Hc4; last first.
  { assert (load_and_tokenize p RANK fs = None) as Hnone
      by (apply load_and_tokenize_None; by right).
    congruence. }
  exists ncc, c4. rewrite (load_and_tokenize_accumulate p RANK fs ncc c4) in Hload by done.
  injection Hload as <-. cbn. by rewrite accumulate_documents_of.
Qed.

Lemma array_total_cons (d : document) (docs : list document) :
  array_total (d :: docs) = (array_total [d] + array_total docs)%Z.
Proof. unfold array_total. cbn. lia. Qed.

Lemma array_total_filter (docs : list document) :
  array_total (filter (λ d : document, 0 < length d) docs) = array_total docs.
Proof.
  induction docs as [| d docs IH]; [done |].
  rewrite filter_cons. destruct (decide (0 < length d)) as [Hd | Hd].
  - by rewrite array_total_cons, IH, <- array_total_cons.
  - rewrite IH, (array_total_cons d). destruct d; [done | cbn in Hd; lia].
Qed.

Lemma token_count_split (tk : Tokenizer) (lines : list string) :
  token_count tk lines = array_total (line_arrays tk <$> split_blank lines).
Proof.
  induction lines as [| line rest IH]; [done |].
  cbn [token_count foldr split_blank]. fold (token_count tk rest).
  pose proof (split_blank_nonempty rest) as Hne.
  destruct (blank line).
  - rewrite fmap_cons, array_total_cons, <- IH. done.
  - destruct (split_blank rest) as [| g gs]; [done |].
    rewrite IH, !fmap_cons, array_total_cons, (array_total_cons (line_arrays tk g)).
    rewrite line_arrays_cons.
    destruct (encode tk (strip line) false false) as [| t ts];
      unfold array_total; cbn; lia.
Qed.

(** X2: the token counter that [load_and_tokenize] reports is the number
    of tokens in the documents it keeps: nothing counted is dropped with
    an empty document, and nothing kept goes uncounted. *)
Theorem total_tokens_counts_documents (p : Processor) (RANK : Z)
  (fs : gmap string (list string)) (st : ingest_state) :
  load_and_tokenize p RANK fs = Some st →
  total_tokens st = array_total (documents st).
Proof.
  intros (ncc & c4 & _ & _ & -> & ->)%load_and_tokenize_Some_inv.
  unfold documents_of. by rewrite array_total_filter, token_count_split.
Qed.

Lemma total_tokens_counts_documents_witness :
  total_tokens {| documents := demo_documents; total_tokens := 5 |}
    = array_total demo_documents.
Proof.
  exact (total_tokens_counts_documents demo_processor 3 demo_corpus
           {| documents := demo_documents; total_tokens := 5 |} eq_refl).
Defined.

Lemma line_arrays_nonempty (tk : Tokenizer) (g : list string) :
  Forall (λ a : token_array, a ≠ []) (line_arrays tk g).
Proof.
  unfold line_arrays. apply Forall_forall. intros a Ha.
  apply list_elem_of_filter in Ha as [Hlen _]. destruct a; [cbn in Hlen; lia | done].
Qed.

Lemma documents_of_shape (tk : Tokenizer) (lines : list string) :
  Forall (λ d : document, d ≠ [] ∧ Forall (λ a : token_array, a ≠ []) d)
         (documents_of tk lines).
Proof.
  unfold documents_of. apply Forall_forall. intros d Hd.
  apply list_elem_of_filter in Hd as [Hlen Hd].
  apply list_elem_of_fmap in Hd as (g & -> & _). split.
  - destruct (line_arrays tk g); [cbn in Hlen; lia | done].
  - apply line_arrays_nonempty.
Qed.

(** X3: every document that [load_and_tokenize] keeps has at least one
    token array, and every token array has at least one token: blank
    lines in a row, blank lines at either end and lines without tokens
    leave no trace in the result. *)
Theorem documents_have_tokens (p : Processor) (RANK : Z)
  (fs : gmap string (list string)) (st : ingest_state) :
  load_and_tokenize p RANK fs = Some st →
  Forall (λ d : document, d ≠ [] ∧ Forall (λ a : token_array, a ≠ []) d)
         (documents st).
Proof.
  intros (ncc & c4 & _ & _ & -> & _)%load_and_tokenize_Some_inv.
  apply documents_of_shape.
Qed.

Lemma documents_have_tokens_witness :
  Forall (λ d : document, d ≠ [] ∧ Forall (λ a : token_array, a ≠ []) d)
         demo_documents.
Proof.
  exact (documents_have_tokens demo_processor 3 demo_corpus
           {| documents := demo_documents; total_tokens := 5 |} eq_refl).
Defined.

Lemma array_total_positive (docs : list document) :
  Forall (λ d : document, d ≠ [] ∧ Forall (λ a : token_array, a ≠ []) d) docs →
  docs ≠ [] → (0 < array_total docs)%Z.
Proof.
  assert (Hnonneg : ∀ l : list document, (0 ≤ array_total l)%Z).
  { induction l as [| d l IH]; [done |]. rewrite array_total_cons.
    assert (0 ≤ array_total [d])%Z; [| lia].
    unfold array_total. cbn. induction d as [| a d IHd]; cbn; lia. }
  intros Hshape Hne. destruct Hshape as [| d docs [Hd Harr] _]; [done |].
  rewrite array_total_cons. pose proof (Hnonneg docs).
  destruct Harr as [| a d Ha _]; [done |].
  assert (0 ≤ array_total [d])%Z by apply Hnonneg.
  unfold array_total in *. cbn in *. destruct a; [done | cbn; lia].
Qed.

(** X4: [load_and_tokenize] returns no document exactly when it has
    counted no token; in particular files that are empty or hold only
    blank lines, or lines the tokenizer maps to nothing, give an empty
    list and not a list with an empty document. *)
Theorem no_documents_iff_no_tokens (p : Processor) (RANK : Z)
  (fs : gmap string (list string)) (st : ingest_state) :
  load_and_tokenize p RANK fs = Some st →
  documents st = [] ↔ total_tokens st = 0%Z.
Proof.
  intros (ncc & c4 & _ & _ & Hdocs & Htotal)%load_and_tokenize_Some_inv.
  assert (Hsum : total_tokens st = array_total (documents st)).
  { rewrite Hdocs, Htotal. unfold documents_of.
    by rewrite array_total_filter, token_count_split. }
  split.
  - intros Hnil. by rewrite Hsum, Hnil.
  - intros Hzero. destruct (decide (documents st = [])) as [| Hne]; [done |].
    assert (Hshape : Forall (λ d : document,
                        d ≠ [] ∧ Forall (λ a : token_array, a ≠ []) d) (documents st))
      by (rewrite Hdocs; apply documents_of_shape).
    pose proof (array_total_positive _ Hshape Hne). lia.
Qed.

Lemma no_documents_iff_no_tokens_witness :
  documents {| documents := []; total_tokens := 0 |} = []
  ↔ total_tokens {| documents := []; total_tokens := 0 |} = 0%Z.
Proof.
  exact (no_documents_iff_no_tokens demo_processor 3
           (<[ncc_path demo_processor 3 := [""; "  "]]>
              {[c4_path demo_processor 3 := []]})
           {| documents := []; total_tokens := 0 |} eq_refl).
Defined.

(** X5: when the first corpus file ends with a blank line, no document
    spans the two files: the result is the documents of the first file
    followed by the documents of the second. *)
Theorem documents_split_at_file_boundary (p : Processor) (RANK : Z)
  (fs : gmap string (list string)) (ncc c4 : list string) (line : string) :
  fs !! ncc_path p RANK = Some ncc →
  fs !! c4_path p RANK = Some c4 →
  last ncc = Some line →
  blank line = true →
  documents <$> load_and_tokenize p RANK fs =
    Some (documents_of (tokenizer p) ncc ++ documents_of (tokenizer p) c4).
Proof.
  intros Hncc Hc4 Hlast Hblank.
  rewrite (load_and_tokenize_accumulate p RANK fs ncc c4) by done.
  cbn. rewrite accumulate_documents_of. f_equal.
  apply last_Some in Hlast as [pre ->].
  rewrite <- app_assoc. cbn [app].
  rewrite !documents_of_at_blank by done.
  change (documents_of (tokenizer p) []) with (@nil document).
  by rewrite app_nil_r.
Qed.

Lemma documents_split_at_file_boundary_witness :
  documents <$> load_and_tokenize demo_processor 3
                  (<[ncc_path demo_processor 3 := ["a b"; " "]]>
                     {[c4_path demo_processor 3 := ["dd"; ""; "e"]]}) =
    Some [ [[1; 1]%Z]; [[2%Z]]; [[1%Z]] ].
Proof.
  exact (documents_split_at_file_boundary demo_processor 3
           (<[ncc_path demo_processor 3 := ["a b"; " "]]>
              {[c4_path demo_processor 3 := ["dd"; ""; "e"]]})
           ["a b"; " "] ["dd"; ""; "e"] " " eq_refl eq_refl eq_refl eq_refl).
Defined.

Lemma lstrip_empty (s : string) :
  lstrip s = EmptyString ↔ Forall (λ c, isspace c = true) (list_ascii_of_string s).
Proof.
  induction s as [| c s IH]; cbn.
  - split; [constructor | done].
  - destruct (isspace c) eqn:Hc.
    + rewrite IH. split; [by constructor | by inversion 1].
    + split; [done |]. inversion 1; congruence.
Qed.

Lemma rstrip_empty (s : string) :
  rstrip s = EmptyString ↔ Forall (λ c, isspace c = true) (list_ascii_of_string s).
Proof.
  induction s as [| c s IH]; cbn.
  - split; [constructor | done].
  - destruct (rstrip s) as [| c' r] eqn:Hr.
    + destruct (isspace c) eqn:Hc.
      * split; [intros _; constructor; [done | by apply IH] | done].
      * split; [done |]. inversion 1; congruence.
    + split; [done |]. inversion 1 as [| ? ? _ Hs]. by apply IH in Hs.
Qed.

Lemma lstrip_head (s : string) :
  match lstrip s with
  | EmptyString => True
  | String c _ => isspace c = false
  end.
Proof.
  induction s as [| c s IH]; cbn; [done |].
  destruct (isspace c) eqn:Hc; [done | by cbn].
Qed.

Lemma blank_white_space (line : string) :
  blank line = true
  ↔ Forall (λ c, isspace c = true) (list_ascii_of_string line).
Proof.
  unfold blank, strip. split.
  - intros Hb. apply lstrip_empty.
    destruct (rstrip (lstrip line)) eqn:Hr; [| done].
    apply rstrip_empty in Hr. pose proof (lstrip_head line) as Hhead.
    destruct (lstrip line) as [| c r]; [done |].
    inversion Hr; congruence.
  - intros Hall. apply lstrip_empty in Hall. by rewrite Hall.
Qed.

Lemma isspace_codes (c : ascii) :
  isspace c = true
  ↔ 9 ≤ nat_of_ascii c ≤ 13 ∨ 28 ≤ nat_of_ascii c ≤ 32.
Proof.
  unfold isspace. cbv zeta.
  rewrite orb_true_iff, !andb_true_iff, !Nat.leb_le. tauto.
Qed.

(** X6: on a line of ASCII characters, one turn of the loop over the lines
    never raises once the list of documents is not empty, and it opens a
    new document exactly when every character of the line has one of the
    codes 9 to 13 (TAB, LF, VT, FF, CR) or 28 to 32 (FS, GS, RS, US,
    SPACE): a line of such blanks delimits documents just as an empty line
    does, and an ASCII line with any other character never does. *)
Theorem ascii_white_space_line_delimits (tk : Tokenizer) (st : ingest_state)
  (line : string) :
  documents st ≠ [] →
  Forall (λ c, nat_of_ascii c < 128) (list_ascii_of_string line) →
  ∃ st',
    process_line tk st line = Some st'
    ∧ (length (documents st') = S (length (documents st))
       ↔ Forall (λ c, 9 ≤ nat_of_ascii c ≤ 13 ∨ 28 ≤ nat_of_ascii c ≤ 32)
                (list_ascii_of_string line)).
Proof.
  intros Hne _.
  assert (Hw : strip line = EmptyString
               ↔ Forall (λ c, 9 ≤ nat_of_ascii c ≤ 13 ∨ 28 ≤ nat_of_ascii c ≤ 32)
                        (list_ascii_of_string line)).
  { pose proof (blank_white_space line) as Hb. unfold blank in Hb.
    rewrite <- (Forall_iff _ _ _ isspace_codes), <- Hb.
    destruct (strip line); by split. }
  unfold process_line.
  destruct (strip line) as [| c s] eqn:Hstrip.
  - eexists. split; [done |]. cbn. rewrite length_app. cbn.
    split; [intros _; by apply Hw | lia].
  - assert (Hno : ¬ Forall (λ c, 9 ≤ nat_of_ascii c ≤ 13 ∨ 28 ≤ nat_of_ascii c ≤ 32)
                           (list_ascii_of_string line))
      by (intros HF; by apply Hw in HF).
    destruct (encode tk (String c s) false false) as [| t ts] eqn:Henc.
    + rewrite bool_decide_false by (cbn; lia). exists st.
      split; [done |]. split; [lia | done].
    + rewrite bool_decide_true by (cbn; lia).
      destruct (documents st) as [| d docs _] using rev_ind; [done |].
      rewrite append_to_last_snoc. cbn [mbind option_bind]. eexists.
      split; [done |]. cbn. rewrite !length_app. cbn. split; [lia | done].
Qed.

Lemma ascii_white_space_line_delimits_witness :
  ∃ st',
    process_line (tokenizer demo_processor)
      {| documents := [[[1%Z]]]; total_tokens := 1 |} "  " = Some st'
    ∧ (length (documents st') = 2
       ↔ Forall (λ c, 9 ≤ nat_of_ascii c ≤ 13 ∨ 28 ≤ nat_of_ascii c ≤ 32)
                (list_ascii_of_string "  ")).
Proof.
  exact (ascii_white_space_line_delimits (tokenizer demo_processor)
           {| documents := [[[1%Z]]]; total_tokens := 1 |} "  "
           ltac:(discriminate)
           ltac:(repeat constructor; vm_compute; lia)).
Defined.

End IngestMore.

(** ** The Shard Writer: sizes, reruns and several ranks *)

Module ShardMore.
Import Py PyFacts FS NoTokenize Reference ShardFacts.

(** X7: the eight artifacts are balanced: artifact [i] holds
    [len // 8] documents, and one more when [i < len % 8]; with fewer
    than eight documents the later artifacts are written empty. *)
Theorem artifact_sizes (p : Processor) (RANK : Z) (D : list document) (i : nat) :
  (i < 8)%nat →
  ∃ name shard,
    artifacts p RANK D !! i = Some (name, shard)
    ∧ length shard =
        (length D / 8 + (if decide (i < length D mod 8) then 1 else 0))%nat
    ∧ (shard = [] ↔ (length D ≤ i)%nat).
Proof.
  intros Hi. eexists _, _. split; [by apply artifacts_lookup |].
  assert (Hlen : length (slice D i 8) =
            (length D / 8 + (if decide (i < length D mod 8) then 1 else 0))%nat).
  { rewrite slice_length by lia. unfold range_len.
    pose proof (Nat.div_mod_eq (length D) 8) as Hn.
    pose proof (Nat.mod_upper_bound (length D) 8 ltac:(lia)) as Hr.
    pose proof (Nat.div_mod_eq (length D - i + (8 - 1)) 8) as Hq.
    pose proof (Nat.mod_upper_bound (length D - i + (8 - 1)) 8 ltac:(lia)) as Hs.
    case_decide; lia. }
  split; [done |].
  rewrite <- length_zero_iff_nil, Hlen.
  pose proof (Nat.div_mod_eq (length D) 8) as Hn.
  pose proof (Nat.mod_upper_bound (length D) 8 ltac:(lia)) as Hr.
  case_decide; lia.
Qed.

Lemma artifact_sizes_witness :
  ∃ name shard,
    artifacts demo_processor 3 demo_documents !! 2%nat = Some (name, shard)
    ∧ length shard = 1%nat
    ∧ (shard = [] ↔ (3 ≤ 2)%nat).
Proof.
  exact (artifact_sizes demo_processor 3 demo_documents 2 ltac:(lia)).
Defined.

(** What [save] writes does not depend on what was on the disk. *)
Lemma written_union (arts : list (string * list document))
  (fs : gmap string (file (list document))) :
  foldl (λ fs a, finish_write a.1 a.2 fs) fs arts =
    foldl (λ fs a, finish_write a.1 a.2 fs) ∅ arts ∪ fs.
Proof.
  induction arts as [| a arts IH] using rev_ind.
  - cbn. by rewrite (left_id_L ∅ (∪)).
  - rewrite !foldl_snoc, IH. unfold finish_write. by rewrite insert_union_l.
Qed.

Lemma save_union (p : Processor) (RANK : Z) (D : list document)
  (fs : gmap string (file (list document))) :
  save p RANK D fs = save p RANK D ∅ ∪ fs.
Proof.
  unfold save, save_steps. rewrite !run_write_artifacts. apply written_union.
Qed.

Lemma artifact_names (p : Processor) (RANK : Z) (D : list document) :
  (artifacts p RANK D).*1 =
    (λ i : nat, output_path p (RANK * 8 + Z.of_nat i)%Z) <$> seq 0 8.
Proof. unfold artifacts. by rewrite <- list_fmap_compose. Qed.

Lemma written_lookup_Some (arts : list (string * list document)) (name : string) :
  ∀ g : gmap string (file (list document)),
  name ∈ arts.*1 →
  is_Some (foldl (λ fs a, finish_write a.1 a.2 fs) g arts !! name).
Proof.
  induction arts as [| b arts IH] using rev_ind; intros g Hin;
    [by apply elem_of_nil in Hin |].
  rewrite foldl_snoc. unfold finish_write.
  destruct (decide (b.1 = name)) as [-> | Hne]; [by rewrite lookup_insert_eq |].
  rewrite lookup_insert_ne by done. apply IH.
  rewrite fmap_app, elem_of_app in Hin. destruct Hin as [Hin | Hin]; [done |].
  apply list_elem_of_singleton in Hin. congruence.
Qed.

Lemma written_lookup_None (arts : list (string * list document)) (name : string) :
  ∀ g : gmap string (file (list document)),
  name ∉ arts.*1 →
  foldl (λ fs a, finish_write a.1 a.2 fs) g arts !! name = g !! name.
Proof.
  induction arts as [| b arts IH] using rev_ind; intros g Hout; [done |].
  rewrite foldl_snoc. unfold finish_write.
  rewrite fmap_app, not_elem_of_app in Hout. destruct Hout as [Hout Hb].
  rewrite lookup_insert_ne; [by apply IH |].
  intros Heq. apply Hb. rewrite <- Heq. by left.
Qed.

Lemma save_overwrites (p : Processor) (RANK : Z) (D D' : list document)
  (fs : gmap string (file (list document))) :
  save p RANK D' (save p RANK D fs) = save p RANK D' fs.
Proof.
  apply map_eq. intros path.
  rewrite (save_union p RANK D' (save p RANK D fs)), (save_union p RANK D' fs).
  rewrite !lookup_union.
  destruct (decide (path ∈ (artifacts p RANK D').*1)) as [Hin | Hout].
  - destruct (written_lookup_Some _ path ∅ Hin) as [f Hf].
    unfold save, save_steps at 1 3. rewrite !run_write_artifacts, Hf.
    by rewrite !union_Some_l.
  - f_equal. unfold save, save_steps. rewrite !run_write_artifacts.
    rewrite written_lookup_None; [done |].
    by rewrite (artifact_names p RANK D), <- (artifact_names p RANK D').
Qed.

(** X8: for a reader, [save] is idempotent and overwrites.  After running
    it again with the same documents every path loads to what it loaded to
    before; after running it with other documents every path loads to what
    it would load to had the second run alone been made on the original
    disk: nothing of the first run can be read any more.  (This is about
    what the files unpickle to; the gzip header of a rewritten file
    carries the time of the write.) *)
Theorem save_again_loads_the_same (p : Processor) (RANK : Z)
  (D D' : list document) (fs : gmap string (file (list document)))
  (path : string) :
  load path (save p RANK D (save p RANK D fs)) = load path (save p RANK D fs)
  ∧ load path (save p RANK D' (save p RANK D fs)) = load path (save p RANK D' fs).
Proof. by rewrite !save_overwrites. Qed.

Lemma load_saved (p : Processor) (RANK : Z) (D : list document)
  (fs : gmap string (file (list document))) (i : nat) :
  NoDup ((λ i : nat, output_path p (RANK * 8 + Z.of_nat i)%Z) <$> seq 0 8) →
  (i < 8)%nat →
  save p RANK D fs !! output_path p (RANK * 8 + Z.of_nat i)%Z
    = Some (Whole (slice D i 8)).
Proof.
  intros Hnd Hi. unfold save, save_steps. rewrite run_write_artifacts.
  rewrite <- (artifact_names p RANK D) in Hnd.
  exact (written_artifact_lookup (artifacts p RANK D) fs i _ Hnd
           (artifacts_lookup p RANK D i Hi)).
Qed.

Lemma read_shards_saved (p : Processor) (RANK : Z) (D : list document)
  (fs : gmap string (file (list document))) :
  NoDup ((λ i : nat, output_path p (RANK * 8 + Z.of_nat i)%Z) <$> seq 0 8) →
  read_shards p RANK (save p RANK D fs) = Some ((λ i, slice D i 8) <$> seq 0 8).
Proof.
  intros Hnd. unfold read_shards. apply CoordinatorFacts.mapM_total.
  intros i Hi%elem_of_seq. unfold load. by rewrite load_saved by (done || lia).
Qed.

(** X9: [load_and_tokenize] followed by [save], read back: once the two
    corpus files of the rank have been read and [save] has run to its end
    on the documents, the eight output names being different, the eight
    files can all be loaded, and putting them together by index gives
    exactly the documents of the two files read as one. *)
Theorem saved_shards_round_trip (p : Processor) (RANK : Z)
  (corpus : gmap string (list string))
  (disk : gmap string (file (list document))) (ncc c4 : list string) :
  corpus !! ncc_path p RANK = Some ncc →
  corpus !! c4_path p RANK = Some c4 →
  NoDup ((λ i : nat, output_path p (RANK * 8 + Z.of_nat i)%Z) <$> seq 0 8) →
  ∃ st shards,
    load_and_tokenize p RANK corpus = Some st
    ∧ read_shards p RANK (save p RANK (documents st) disk) = Some shards
    ∧ unshard 8 shards = documents st
    ∧ documents st = documents_of (tokenizer p) (ncc ++ c4).
Proof.
  intros Hncc Hc4 Hnd.
  rewrite (IngestFacts.load_and_tokenize_accumulate p RANK corpus ncc c4) by done.
  eexists _, _. split; [done |]. cbn [documents].
  split; [by apply read_shards_saved |].
  split; [apply unshard_slices | apply IngestFacts.accumulate_documents_of].
Qed.

Lemma saved_shards_round_trip_witness :
  ∃ st shards,
    load_and_tokenize demo_processor 3 demo_corpus = Some st
    ∧ read_shards demo_processor 3 (save demo_processor 3 (documents st) ∅)
      = Some shards
    ∧ unshard 8 shards = documents st
    ∧ documents st = demo_documents.
Proof.
  exact (saved_shards_round_trip demo_processor 3 demo_corpus ∅
           ["a b"; " "; "ccc"] ["dd"; ""; "e"] eq_refl eq_refl
           ltac:(apply (bool_decide_unpack _); vm_compute; exact I)).
Defined.

(** X10: with a template that gives different names to different numbers,
    the ranks never write over each other: after another rank has saved
    its own documents, the shards of a rank are still there and still put
    together to its documents. *)
Theorem ranks_do_not_collide (p : Processor) (RANK RANK' : Z)
  (D D' : list document) (fs : gmap string (file (list document))) :
  Inj (=) (=) (output_path p) →
  RANK ≠ RANK' →
  read_shards p RANK (save p RANK' D' (save p RANK D fs)) =
    Some ((λ i, slice D i 8) <$> seq 0 8)
  ∧ unshard 8 <$> read_shards p RANK (save p RANK' D' (save p RANK D fs)) = Some D.
Proof.
  intros Hinj Hne.
  assert (Hnd : NoDup ((λ i : nat, output_path p (RANK * 8 + Z.of_nat i)%Z) <$> seq 0 8)).
  { apply NoDup_fmap_2_strong; [| apply NoDup_seq].
    intros i j _ _ Heq. apply Hinj in Heq. lia. }
  assert (Hread : read_shards p RANK (save p RANK' D' (save p RANK D fs)) =
            Some ((λ i, slice D i 8) <$> seq 0 8)).
  { unfold read_shards. apply CoordinatorFacts.mapM_total.
    intros i Hi%elem_of_seq. unfold load.
    assert (Hkeep : save p RANK' D' (save p RANK D fs)
                      !! output_path p (RANK * 8 + Z.of_nat i)%Z
                    = save p RANK D fs !! output_path p (RANK * 8 + Z.of_nat i)%Z).
    { unfold save at 1, save_steps. rewrite run_write_artifacts.
      apply written_lookup_None. rewrite artifact_names.
      intros (j & Heq & Hj%elem_of_seq)%list_elem_of_fmap.
      apply Hinj in Heq. lia. }
    by rewrite Hkeep, load_saved by (done || lia). }
  split; [done |]. rewrite Hread.
  change (Some (unshard 8 ((λ i, slice D i 8) <$> seq 0 8)) = Some D).
  by rewrite unshard_slices.
Qed.

Lemma ranks_do_not_collide_witness :
  unshard 8 <$> read_shards plain_processor 3
                  (save plain_processor 4 [] (save plain_processor 3 demo_documents ∅))
    = Some demo_documents.
Proof.
  exact (proj2 (ranks_do_not_collide plain_processor 3 4 demo_documents [] ∅
                  pretty_Z_inj ltac:(lia))).
Defined.

End ShardMore.

(** ** The Distributed Coordinator: devices, shards and budgets *)

Module CoordinatorMore.
Import Py Train Reference CoordinatorFacts.
Local Open Scope Z_scope.

(** X11: the processes of one node get different devices: two different
    ranks with the same node number [rank // gpus_per_node] have different
    local ranks, and node number and local rank give the rank back. *)
Theorem local_rank_distinct_on_node (r r' d lr lr' : Z) :
  0 < d →
  local_rank r d = Some lr →
  local_rank r' d = Some lr' →
  r = d * (r / d) + lr
  ∧ (r / d = r' / d → r ≠ r' → lr ≠ lr').
Proof.
  intros Hd Hlr Hlr'. unfold local_rank, floordiv in *.
  destruct (Z.eqb_spec d 0); [lia |]. cbn in *.
  injection Hlr as <-. injection Hlr' as <-. split; [lia |].
  intros Hnode Hne. rewrite Hnode. lia.
Qed.

Lemma local_rank_distinct_on_node_witness :
  13 = 8 * (13 / 8) + 5 ∧ (13 / 8 = 10 / 8 → 13 ≠ 10 → 5 ≠ 2).
Proof.
  exact (local_rank_distinct_on_node 13 10 8 5 2 ltac:(lia) eq_refl eq_refl).
Defined.

(** X12: the shard a rank trains on is one of the [n_training_files]
    shards, and as long as there are at least as many shards as ranks no
    two ranks train on the same shard in the same epoch. *)
Theorem ranks_train_on_distinct_shards (args : namespace) (n world epoch r r' : Z) :
  getattr_int args "n_training_files" = Some n →
  0 < world ≤ n →
  0 ≤ r < world →
  0 ≤ r' < world →
  ∃ idx idx',
    train_index args r world epoch = Some idx
    ∧ train_index args r' world epoch = Some idx'
    ∧ 0 ≤ idx < n
    ∧ (r ≠ r' → idx ≠ idx').
Proof.
  intros Hfiles Hworld Hr Hr'.
  exists ((r + epoch * world) mod n), ((r' + epoch * world) mod n).
  rewrite !(train_index_eq args n world epoch Hfiles ltac:(lia)).
  split; [done |]. split; [done |]. split; [apply Z.mod_pos_bound; lia |].
  intros Hne Heq.
  pose proof (Z.div_mod (r + epoch * world) n ltac:(lia)) as Ha.
  pose proof (Z.div_mod (r' + epoch * world) n ltac:(lia)) as Hb.
  rewrite Heq in Ha.
  assert (Hdiff : r - r' = n * ((r + epoch * world) / n - (r' + epoch * world) / n))
    by lia.
  destruct (Z.lt_trichotomy ((r + epoch * world) / n) ((r' + epoch * world) / n))
    as [Hlt | [Heq' | Hlt]]; [nia | | nia].
  rewrite Heq' in Hdiff. lia.
Qed.

Lemma ranks_train_on_distinct_shards_witness :
  ∃ idx idx',
    train_index scenario_args 0 3 5 = Some idx
    ∧ train_index scenario_args 2 3 5 = Some idx'
    ∧ 0 ≤ idx < 3
    ∧ (0 ≠ 2 → idx ≠ idx').
Proof.
  exact (ranks_train_on_distinct_shards scenario_args 3 3 5 0 2 eq_refl
           ltac:(lia) ltac:(lia) ltac:(lia)).
Defined.

(** X13: [load_dataset] raises when no training shard was found
    ([n_training_files] is 0) and when the batch size is 0: both end in a
    division by zero, the first when the shard index is taken, the second
    when the batches are counted. *)
Theorem load_dataset_division_by_zero (dataset_len : Z → nat) (args : namespace)
  (env : environ) (epoch : Z) :
  getattr_int args "n_training_files" = Some 0
  ∨ getattr_int args "batch_size" = Some 0 →
  load_dataset dataset_len args env epoch = None.
Proof.
  intros [Hfiles | Hbatch]; unfold load_dataset.
  - unfold train_index. by rewrite Hfiles.
  - destruct (train_index args (get_rank env) (get_world_size env) epoch)
      as [idx |] eqn:Hidx; [| done].
    cbn [mbind option_bind].
    assert (Hlocal : ∀ r, local_min_length dataset_len args r (get_world_size env) epoch
                          = None).
    { intros r. unfold local_min_length, full_batches.
      destruct (train_index args r (get_world_size env) epoch); [| done].
      cbn. by rewrite Hbatch. }
    destruct (seq 0 (Z.to_nat (get_world_size env))) as [| r0 rs] eqn:Hseq.
    + cbn. by destruct (Z.to_nat (get_rank env)).
    + cbn. by rewrite Hlocal.
Qed.

Lemma load_dataset_division_by_zero_witness :
  load_dataset scenario_lengths
    {[ "n_training_files" := VInt 0; "batch_size" := VInt 32 ]} (scenario_env 0) 0
    = None.
Proof.
  exact (load_dataset_division_by_zero scenario_lengths
           {[ "n_training_files" := VInt 0; "batch_size" := VInt 32 ]}
           (scenario_env 0) 0 (or_introl eq_refl)).
Defined.

(** X14: the agreed length never asks a loader for more than it has: on
    every rank sixteen times the agreed length is at most the number of
    batches of the loader that [training_epoch] builds on the rank's
    data. *)
Theorem budget_fits_loader (dataset_len : Z → nat) (args : namespace)
  (env : environ) (epoch n batch_size seed step : Z) :
  getattr_int args "n_training_files" = Some n →
  n ≠ 0 →
  getattr_int args "batch_size" = Some batch_size →
  0 < batch_size →
  getattr_int args "seed" = Some seed →
  0 ≤ get_rank env < get_world_size env →
  ∃ data_len budget loader,
    load_dataset dataset_len args env epoch = Some (data_len, budget)
    ∧ epoch_dataloader data_len args env step epoch = Some loader
    ∧ 16 * budget ≤ Z.of_nat (n_batches loader).
Proof.
  intros Hfiles Hn Hbatch Hbs Hseed Hrank.
  destruct (load_dataset_reduced dataset_len args n batch_size (get_world_size env)
              epoch Hfiles Hn Hbatch Hbs env eq_refl Hrank)
    as (budget & Hload & Hle & _ & _).
  eexists _, budget, _. split; [exact Hload |].
  unfold epoch_dataloader, create_train_dataloader. rewrite Hseed, Hbatch.
  cbn [mbind option_bind]. destruct (Z.leb_spec batch_size 0); [lia |].
  split; [done |]. cbn [n_batches].
  pose proof (Hle (get_rank env) Hrank) as Hown.
  set (b := Z.of_nat (dataset_len ((get_rank env + epoch * get_world_size env) mod n))
            / batch_size) in *.
  assert (0 ≤ b) by (apply Z.div_pos; lia).
  rewrite Z2Nat.id by done.
  pose proof (Z.mul_div_le b 16 ltac:(lia)). lia.
Qed.

Lemma budget_fits_loader_witness :
  ∃ data_len budget loader,
    load_dataset scenario_lengths scenario_run_args (scenario_env 1) 0
      = Some (data_len, budget)
    ∧ epoch_dataloader data_len scenario_run_args (scenario_env 1) 0 0 = Some loader
    ∧ 16 * budget ≤ Z.of_nat (n_batches loader).
Proof.
  exact (budget_fits_loader scenario_lengths scenario_run_args (scenario_env 1)
           0 3 32 42 0 eq_refl ltac:(lia) eq_refl ltac:(lia) eq_refl ltac:(cbn; lia)).
Defined.

End CoordinatorMore.

(** ** Checkpoints: round trip, generations and resuming after a crash *)

Module CheckpointMore.
Import FS Train Reference CheckpointFacts.
Local Open Scope Z_scope.

Section Written.

Context {learner : Type}.
Variables (path : string) (env : environ).
Hypothesis Hmain : is_main_process env = true.

(** Whatever is on the disk, [save] on the designated process ends with
    the new checkpoint at the fixed path. *)
Lemma saved_at_path (new : checkpoint learner)
  (fs : gmap string (file (checkpoint learner))) :
  run (save_steps path new env) fs !! path = Some (Whole new).
Proof.
  unfold save_steps. rewrite Hmain. cbn. unfold finish_write.
  apply lookup_insert_eq.
Qed.

(** What becomes of the backup: the file that was at the fixed path when
    there was one, the old backup otherwise. *)
Lemma saved_backup (new : checkpoint learner)
  (fs : gmap string (file (checkpoint learner))) :
  run (save_steps path new env) fs !! (path +:+ "_tmp") =
    match fs !! path with
    | Some f => Some f
    | None => fs !! (path +:+ "_tmp")
    end.
Proof.
  pose proof (backup_path_fresh path) as Hne.
  unfold save_steps. rewrite Hmain. cbn. unfold finish_write, open_wb, exists_, rename.
  do 2 rewrite lookup_insert_ne by done.
  destruct (fs !! path) as [f |] eqn:Hf.
  - rewrite bool_decide_true by done. by rewrite lookup_insert_eq.
  - rewrite bool_decide_false; [done |]. by intros [? ?].
Qed.

(** No other file is touched. *)
Lemma saved_elsewhere (new : checkpoint learner)
  (fs : gmap string (file (checkpoint learner))) (other : string) :
  other ≠ path → other ≠ path +:+ "_tmp" →
  run (save_steps path new env) fs !! other = fs !! other.
Proof.
  intros Hp Ht. unfold save_steps. rewrite Hmain. cbn.
  unfold finish_write, open_wb, exists_, rename.
  do 2 rewrite lookup_insert_ne by done.
  destruct (fs !! path) as [f |] eqn:Hf.
  - rewrite bool_decide_true by done.
    by rewrite lookup_insert_ne, lookup_delete_ne by done.
  - rewrite bool_decide_false; [done |]. by intros [? ?].
Qed.

End Written.

(** X15: a checkpoint round trip: what the designated process saves at
    the end of an epoch can be resumed from, whatever was on the disk
    before; the resumed run gets the saved learner, starts at the next
    epoch and at the saved global step, and its [args] are the saved ones
    completed by the parsed ones. *)
Theorem save_then_resume {learner : Type} (epoch : Z) (args parsed : namespace)
  (env env' : environ) (generate_id : string) (st : run_state learner) :
  is_main_process env = true →
  is_Some (getattr_str args "output_dir") →
  ∃ path st',
    save epoch args env st = Some (path, st')
    ∧ startup (<["checkpoint_path" := VStr path]> parsed) env' generate_id (disk st') =
        Some (args ∪ <["checkpoint_path" := VStr path]> parsed,
              Some (checkpoint_of epoch args st), epoch + 1, global_step st)
    ∧ ck_learner (checkpoint_of epoch args st) = weights st.
Proof.
  intros Hmain [output_dir Hdir]. unfold save. rewrite Hdir.
  cbn [mbind option_bind]. eexists _, _. split; [done |]. split; [| done].
  unfold startup. rewrite lookup_insert_eq. cbn [disk]. unfold load.
  by rewrite saved_at_path.
Qed.

Lemma save_then_resume_witness :
  ∃ path st',
    save 3 demo_args (scenario_env 0) demo_state = Some (path, st')
    ∧ startup (<["checkpoint_path" := VStr path]> ∅) (scenario_env 2) "id" (disk st') =
        Some (demo_args ∪ <["checkpoint_path" := VStr path]> ∅,
              Some (checkpoint_of 3 demo_args demo_state), 3 + 1, global_step demo_state)
    ∧ ck_learner (checkpoint_of 3 demo_args demo_state) = weights demo_state.
Proof.
  exact (save_then_resume 3 demo_args ∅ (scenario_env 0) (scenario_env 2) "id"
           demo_state eq_refl (ex_intro _ "ckpt" eq_refl)).
Defined.

(** X16: exactly two generations are kept.  After two saves in a row the
    fixed path holds the second checkpoint and the backup the first,
    whatever was on the disk before; a first save on a disk without a
    file at the fixed path makes no backup; and no save touches any other
    file. *)
Theorem two_generations {learner : Type} (e1 e2 : Z) (args : namespace)
  (env : environ) (st1 st2 : run_state learner) (path : string)
  (st1' st2' : run_state learner) :
  is_main_process env = true →
  save e1 args env st1 = Some (path, st1') →
  disk st2 = disk st1' →
  save e2 args env st2 = Some (path, st2') →
  load path (disk st2') = Some (checkpoint_of e2 args st2)
  ∧ load (path +:+ "_tmp") (disk st2') = Some (checkpoint_of e1 args st1)
  ∧ (disk st1 !! path = None →
     disk st1' !! (path +:+ "_tmp") = disk st1 !! (path +:+ "_tmp"))
  ∧ (∀ other, other ≠ path → other ≠ path +:+ "_tmp" →
       disk st2' !! other = disk st1 !! other).
Proof.
  intros Hmain Hsave1 Hdisk Hsave2. unfold save in *.
  destruct (getattr_str args "output_dir") as [output_dir |]; [| done].
  cbn [mbind option_bind] in *.
  injection Hsave1 as <- <-. injection Hsave2 as <-. cbn [disk] in *.
  set (path := output_dir +:+ "/model.bin") in *.
  split_and!.
  - unfold load. by rewrite saved_at_path.
  - unfold load. rewrite saved_backup, Hdisk by done. by rewrite saved_at_path.
  - intros Hnone. by rewrite saved_backup, Hnone.
  - intros other Hp Ht. rewrite saved_elsewhere, Hdisk by done.
    by rewrite saved_elsewhere.
Qed.

Lemma two_generations_witness :
  load "ckpt/model.bin_tmp"
    (run (save_steps "ckpt/model.bin" (checkpoint_of 4 demo_args demo_state)
            (scenario_env 0))
       (run (save_steps "ckpt/model.bin" (checkpoint_of 3 demo_args demo_state)
               (scenario_env 0))
          (disk demo_state)))
    = Some (checkpoint_of 3 demo_args demo_state).
Proof.
  exact (proj1 (proj2 (two_generations 3 4 demo_args (scenario_env 0) demo_state
                         {| weights := tt; global_step := 345;
                            disk := run (save_steps "ckpt/model.bin"
                                           (checkpoint_of 3 demo_args demo_state)
                                           (scenario_env 0)) (disk demo_state);
                            trace := [EvSave 3 345] |}
                         "ckpt/model.bin" _ _ eq_refl eq_refl eq_refl eq_refl))).
Defined.

(** X17: resuming needs a whole file.  With [args.checkpoint_path] set,
    the head of [__main__] raises exactly when nothing can be loaded from
    that path; so after a crash between the rename and the end of the
    write, resuming from the fixed path fails (the file is missing or
    truncated) and the run has to be pointed at the backup. *)
Theorem resume_needs_whole_file {learner : Type} (args : namespace)
  (env env' : environ) (generate_id path : string)
  (old new : checkpoint learner)
  (fs : gmap string (file (checkpoint learner))) (k : nat) :
  args !! "checkpoint_path" = Some (VStr path) →
  is_main_process env = true →
  fs !! path = Some (Whole old) →
  (1 ≤ k < 3)%nat →
  (∀ disk' : gmap string (file (checkpoint learner)),
     startup args env' generate_id disk' = None ↔ load path disk' = None)
  ∧ startup args env' generate_id (crash_after k (save_steps path new env) fs) = None.
Proof.
  intros Hpath Hmain Hold Hk.
  assert (Hiff : ∀ disk' : gmap string (file (checkpoint learner)),
            startup args env' generate_id disk' = None ↔ load path disk' = None).
  { intros disk'. unfold startup. rewrite Hpath.
    destruct (load path disk'); cbn; split; done. }
  split; [done |]. apply Hiff. by apply (unfinished_not_loadable path old).
Qed.

Lemma resume_needs_whole_file_witness :
  startup demo_args (scenario_env 1) "id"
    (crash_after 2
       (save_steps "ckpt/model.bin" (checkpoint_of 3 demo_args demo_state)
          (scenario_env 0))
       (disk demo_state)) = None.
Proof.
  exact (proj2 (resume_needs_whole_file demo_args (scenario_env 0) (scenario_env 1)
                  "id" "ckpt/model.bin" demo_old
                  (checkpoint_of 3 demo_args demo_state) (disk demo_state) 2
                  eq_refl eq_refl eq_refl ltac:(lia))).
Defined.

(** X18: on a resumed run the step limit is the one of the checkpoint:
    [setup_training] copies [max_steps] of the resolved [args], which the
    checkpoint has overridden, into [device_max_steps], so a different
    [--max_steps] on the command line has no effect; the number of
    training files and of devices, on the contrary, are always the ones
    just detected, and every other attribute is as resolved. *)
Theorem resumed_step_limit {learner : Type} (parsed : namespace) (env : environ)
  (generate_id path : string) (fs : gmap string (file (checkpoint learner)))
  (ck : checkpoint learner) (limit : value) (device_count n_files : Z)
  (args args' : namespace) (ck' : option (checkpoint learner))
  (initial_epoch step lr : Z) :
  parsed !! "checkpoint_path" = Some (VStr path) →
  load path fs = Some ck →
  ck_args ck !! "max_steps" = Some limit →
  startup parsed env generate_id fs = Some (args, ck', initial_epoch, step) →
  setup_training args env device_count n_files = Some (args', lr) →
  args' !! "device_max_steps" = Some limit
  ∧ args' !! "n_training_files" = Some (VInt n_files)
  ∧ args' !! "n_gpu" = Some (VInt device_count)
  ∧ (∀ name, name ≠ "device_max_steps" → name ≠ "n_training_files" →
       name ≠ "n_gpu" → args' !! name = (ck_args ck ∪ parsed) !! name).
Proof.
  intros Hpath Hload Hlimit Hstart Hsetup.
  unfold startup in Hstart. rewrite Hpath, Hload in Hstart.
  injection Hstart as <- _ _ _.
  unfold setup_training in Hsetup.
  destruct (negb (SLURM_GPUS_ON_NODE env =? device_count)); [done |].
  destruct (local_rank (SLURM_PROCID env) (SLURM_GPUS_ON_NODE env)); [| done].
  cbn [mbind option_bind] in Hsetup.
  rewrite (lookup_union_Some_l _ _ _ _ Hlimit) in Hsetup.
  cbn [mbind option_bind] in Hsetup. injection Hsetup as <- _.
  split_and!.
  - apply lookup_insert_eq.
  - by rewrite lookup_insert_ne, lookup_insert_eq.
  - do 2 rewrite lookup_insert_ne by done. apply lookup_insert_eq.
  - intros name H1 H2 H3. by do 3 rewrite lookup_insert_ne by done.
Qed.

Lemma resumed_step_limit_witness :
  <["device_max_steps" := VInt 1000]>
    (<["n_training_files" := VInt 64]>
       (<["n_gpu" := VInt 8]>
          (ck_args demo_old ∪ <["max_steps" := VInt 5]> demo_args)))
    !! "device_max_steps" = Some (VInt 1000).
Proof.
  exact (proj1 (resumed_step_limit (<["max_steps" := VInt 5]> demo_args)
                  (scenario_env 0) "id" "ckpt/model.bin" (disk demo_state)
                  demo_old (VInt 1000) 8 64 _ _ _ _ _ _
                  eq_refl eq_refl eq_refl eq_refl eq_refl)).
Defined.

End CheckpointMore.

(** ** The Training Loop Driver: bounds, lockstep and the end of a run *)

Module DriverMore.
Import FS Train Reference CoordinatorFacts DriverFacts.
Local Open Scope Z_scope.

Lemma count_steps_app (a b : list event) :
  count_steps (a ++ b) = count_steps a + count_steps b.
Proof. unfold count_steps. rewrite List.filter_app, length_app. lia. Qed.

Lemma count_steps_events (step : Z) (count : nat) :
  count_steps (step_events step count) = Z.of_nat count.
Proof.
  revert step. induction count as [| count IH]; intros step; [done |].
  rewrite step_events_cons. change (EvStep (step + 1) :: ?l) with ([EvStep (step + 1)] ++ l).
  rewrite count_steps_app, IH. unfold count_steps. cbn. lia.
Qed.

Section Epoch.

Context {learner : Type}.
Variable update : Z → Z → learner → learner.
Variables (args : namespace) (env : environ) (max_steps : Z).
Hypothesis Hmax : getattr_int args "device_max_steps" = Some max_steps.

(** What a successful [training_epoch] has done. *)
Lemma training_epoch_inv (data_len : nat) (epoch budget : Z)
  (st st1 : run_state learner) :
  training_epoch update data_len args env epoch budget st = Some st1 →
  ∃ loader,
    epoch_dataloader data_len args env (global_step st) epoch = Some loader
    ∧ global_step st1 =
        global_step st
          + epoch_steps (n_batches loader) (max_steps - global_step st) budget
    ∧ disk st1 = disk st
    ∧ trace st1 =
        trace st
          ++ step_events (global_step st)
               (Z.to_nat (epoch_steps (n_batches loader)
                            (max_steps - global_step st) budget)).
Proof.
  unfold training_epoch. intros Hrun.
  destruct (epoch_dataloader data_len args env (global_step st) epoch)
    as [loader |]; [| done].
  cbn [mbind option_bind] in Hrun. exists loader. split; [done |].
  destruct (step_loop_steps update args max_steps Hmax (generator_seed loader)
              budget (n_batches loader) 0 st) as (st' & Hst' & Hstep & Hdisk & Htrace).
  rewrite Hst' in Hrun. injection Hrun as <-.
  rewrite Z.sub_0_r in Hstep, Htrace. done.
Qed.

End Epoch.

(** X19: an epoch never runs past the step limit it started below, never
    takes more steps than its loader has batches, and leaves the disk
    alone; but because the exit test comes after the step, it takes at
    least one step whenever the loader has a batch, even with a budget of
    0 or when the limit was already reached, in which case it takes
    exactly one. *)
Theorem training_epoch_bounds {learner : Type} (update : Z → Z → learner → learner)
  (args : namespace) (env : environ) (max_steps : Z) (data_len : nat)
  (epoch budget : Z) (st st1 : run_state learner) :
  getattr_int args "device_max_steps" = Some max_steps →
  training_epoch update data_len args env epoch budget st = Some st1 →
  ∃ loader,
    epoch_dataloader data_len args env (global_step st) epoch = Some loader
    ∧ global_step st ≤ global_step st1 ≤ global_step st + Z.of_nat (n_batches loader)
    ∧ (global_step st < max_steps → global_step st1 ≤ max_steps)
    ∧ ((0 < n_batches loader)%nat → global_step st < global_step st1)
    ∧ ((0 < n_batches loader)%nat → max_steps ≤ global_step st ∨ budget ≤ 1 →
         global_step st1 = global_step st + 1)
    ∧ disk st1 = disk st.
Proof.
  intros Hmax Hrun.
  destruct (training_epoch_inv update args env max_steps Hmax data_len epoch budget
              st st1 Hrun) as (loader & Hloader & Hstep & Hdisk & _).
  exists loader. unfold epoch_steps in Hstep. split_and!; [done | lia.. | done].
Qed.

Lemma training_epoch_bounds_witness :
  ∃ loader,
    epoch_dataloader 160 small_args small_env 0 0 = Some loader
    ∧ 0 ≤ 1 ≤ 0 + Z.of_nat (n_batches loader)
    ∧ (0 < 10 → 1 ≤ 10)
    ∧ ((0 < n_batches loader)%nat → 0 < 1)
    ∧ ((0 < n_batches loader)%nat → 10 ≤ 0 ∨ 0 ≤ 1 → 1 = 0 + 1)
    ∧ (∅ : gmap string (file (checkpoint unit))) = ∅.
Proof.
  exact (training_epoch_bounds (λ _ _ u, u) small_args small_env 10 160 0 0
           fresh_state
           {| weights := tt; global_step := 1; disk := ∅; trace := [EvStep 1] |}
           eq_refl eq_refl).
Defined.

Section Ranks.

Variable dataset_len : Z → nat.
Context {learner : Type}.
Variable update : Z → Z → learner → learner.
Variables (args : namespace) (n batch_size seed max_steps epoch : Z).
Hypothesis Hfiles : getattr_int args "n_training_files" = Some n.
Hypothesis Hn : n ≠ 0.
Hypothesis Hbatch : getattr_int args "batch_size" = Some batch_size.
Hypothesis Hbs : 0 < batch_size.
Hypothesis Hseed : getattr_int args "seed" = Some seed.
Hypothesis Hmax : getattr_int args "device_max_steps" = Some max_steps.

(** With a budget of at least one step, the steps of an epoch on a rank
    depend on the budget and on the global step only. *)
Lemma epoch_on_rank (env : environ) (data_len : nat) (budget : Z)
  (st : run_state learner) :
  0 ≤ get_rank env < get_world_size env →
  load_dataset dataset_len args env epoch = Some (data_len, budget) →
  1 ≤ budget →
  ∃ st1,
    training_epoch update data_len args env epoch budget st = Some st1
    ∧ global_step st1 =
        global_step st + Z.max 1 (Z.min (max_steps - global_step st) budget).
Proof.
  intros Hrank Hload Hbudget.
  destruct (load_dataset_reduced dataset_len args n batch_size (get_world_size env)
              epoch Hfiles Hn Hbatch Hbs env eq_refl Hrank)
    as (m & Hload' & Hle & _ & _).
  rewrite Hload in Hload'. injection Hload' as -> <-.
  pose proof (Hle (get_rank env) Hrank) as Hown.
  set (b := Z.of_nat (dataset_len ((get_rank env + epoch * get_world_size env) mod n))
            / batch_size) in *.
  assert (0 ≤ b) by (apply Z.div_pos; lia).
  pose proof (Z.mul_div_le b 16 ltac:(lia)) as Hsix.
  destruct (step_loop_steps update args max_steps Hmax
              (seed + get_rank env + epoch * get_world_size env) budget
              (Z.to_nat b) 0 st) as (st1 & Hrun & Hstep & _).
  exists st1. split.
  - unfold training_epoch, epoch_dataloader, create_train_dataloader.
    rewrite Hseed, Hbatch. cbn [mbind option_bind].
    destruct (Z.leb_spec batch_size 0); [lia |]. exact Hrun.
  - rewrite Hstep. unfold epoch_steps. rewrite Z2Nat.id by done. lia.
Qed.

End Ranks.

(** X20: the ranks stay in step.  When the agreed length is at least 1,
    any two ranks of the group that enter an epoch with the same global
    step get the same agreed length and leave the epoch with the same
    global step, however different the sizes of their shards: each has
    taken [max 1 (min (max_steps - step) length)] steps. *)
Theorem ranks_step_together (dataset_len : Z → nat) {learner : Type}
  (update : Z → Z → learner → learner) (args : namespace) (env env' : environ)
  (n batch_size seed max_steps epoch : Z) (st st' : run_state learner)
  (data_len : nat) (budget : Z) :
  getattr_int args "n_training_files" = Some n →
  n ≠ 0 →
  getattr_int args "batch_size" = Some batch_size →
  0 < batch_size →
  getattr_int args "seed" = Some seed →
  getattr_int args "device_max_steps" = Some max_steps →
  get_world_size env' = get_world_size env →
  0 ≤ get_rank env < get_world_size env →
  0 ≤ get_rank env' < get_world_size env →
  global_step st' = global_step st →
  load_dataset dataset_len args env epoch = Some (data_len, budget) →
  1 ≤ budget →
  ∃ data_len' st1 st1',
    load_dataset dataset_len args env' epoch = Some (data_len', budget)
    ∧ training_epoch update data_len args env epoch budget st = Some st1
    ∧ training_epoch update data_len' args env' epoch budget st' = Some st1'
    ∧ global_step st1' = global_step st1
    ∧ global_step st1 =
        global_step st + Z.max 1 (Z.min (max_steps - global_step st) budget).
Proof.
  intros Hfiles Hn Hbatch Hbs Hseed Hmax Hworld Hrank Hrank' Hstep Hload Hbudget.
  destruct (load_dataset_reduced dataset_len args n batch_size (get_world_size env)
              epoch Hfiles Hn Hbatch Hbs env eq_refl Hrank)
    as (m & Hload1 & _ & _ & Hall).
  rewrite Hload in Hload1. injection Hload1 as _ <-.
  pose proof (Hall env' Hworld Hrank') as Hsame.
  destruct (load_dataset dataset_len args env' epoch) as [[data_len' budget'] |] eqn:Hload';
    [| done].
  cbn in Hsame. injection Hsame as ->.
  destruct (epoch_on_rank dataset_len update args n batch_size seed max_steps epoch
              Hfiles Hn Hbatch Hbs Hseed Hmax env data_len budget st Hrank Hload Hbudget)
    as (st1 & Hrun & Hgs).
  destruct (epoch_on_rank dataset_len update args n batch_size seed max_steps epoch
              Hfiles Hn Hbatch Hbs Hseed Hmax env' data_len' budget st'
              ltac:(lia) Hload' Hbudget)
    as (st1' & Hrun' & Hgs').
  exists data_len', st1, st1'. split_and!; [done | done | done | | done].
  rewrite Hgs, Hgs', Hstep. done.
Qed.

Lemma ranks_step_together_witness :
  ∃ data_len' st1 st1',
    load_dataset scenario_lengths scenario_run_args (scenario_env 2) 0
      = Some (data_len', 7)
    ∧ training_epoch (λ _ _ u, u) 3840 scenario_run_args (scenario_env 0) 0 7
        fresh_state = Some st1
    ∧ training_epoch (λ _ _ u, u) data_len' scenario_run_args (scenario_env 2) 0 7
        fresh_state = Some st1'
    ∧ global_step st1' = global_step st1
    ∧ global_step st1 = 0 + Z.max 1 (Z.min (20 - 0) 7).
Proof.
  exact (ranks_step_together scenario_lengths (λ _ _ u, u) scenario_run_args
           (scenario_env 0) (scenario_env 2) 3 32 42 20 0 fresh_state fresh_state
           3840 7 eq_refl ltac:(lia) eq_refl ltac:(lia) eq_refl eq_refl eq_refl
           ltac:(cbn; lia) ltac:(cbn; lia) eq_refl ltac:(by vm_compute) ltac:(lia)).
Defined.

Section Run.

Variable dataset_len : Z → nat.
Context {learner : Type}.
Variable update : Z → Z → learner → learner.
Variables (args : namespace) (env : environ) (max_steps : Z).
Hypothesis Hmax : getattr_int args "device_max_steps" = Some max_steps.

(** What holds of every run of the loop over the epochs that comes to an
    end. *)
Lemma epochs_inv (fuel : nat) :
  ∀ (epoch : Z) (st final : run_state learner),
  epochs dataset_len update fuel args env epoch st = Some final →
  (global_step st < max_steps → global_step final = max_steps)
  ∧ (max_steps ≤ global_step st →
     global_step st ≤ global_step final ≤ global_step st + 1)
  ∧ (∃ events e,
       trace final = trace st ++ events ++ [EvSave e (global_step final)]
       ∧ global_step final = global_step st + count_steps events)
  ∧ (∃ e st1 path,
       save e args env st1 = Some (path, final)).
Proof.
  induction fuel as [| fuel IH]; intros epoch st final Hrun; [done |].
  cbn [epochs] in Hrun.
  destruct (load_dataset dataset_len args env epoch) as [[data_len budget] |];
    [| done].
  cbn [mbind option_bind] in Hrun.
  destruct (training_epoch update data_len args env epoch budget st)
    as [st1 |] eqn:Htrain; [| done].
  cbn [mbind option_bind] in Hrun.
  destruct (save epoch args env st1) as [[path st2] |] eqn:Hsave; [| done].
  cbn [mbind option_bind] in Hrun. rewrite Hmax in Hrun.
  cbn [mbind option_bind] in Hrun.
  destruct (training_epoch_inv update args env max_steps Hmax data_len epoch budget
              st st1 Htrain) as (loader & _ & Hstep & _ & Htrace).
  set (count := epoch_steps (n_batches loader) (max_steps - global_step st) budget)
    in *.
  assert (Hcount : 0 ≤ count ∧ (global_step st < max_steps → count ≤ max_steps - global_step st)
                   ∧ (max_steps ≤ global_step st → count ≤ 1))
    by (unfold count, epoch_steps; lia).
  assert (Hst2 : global_step st2 = global_step st1
                 ∧ trace st2 = trace st1 ++ [EvSave epoch (global_step st1)]).
  { unfold save in Hsave. destruct (getattr_str args "output_dir"); [| done].
    cbn in Hsave. by injection Hsave as _ <-. }
  destruct Hst2 as [Hgs2 Htrace2].
  destruct (Z.geb_spec (global_step st2) max_steps) as [Hdone | Hmore].
  - injection Hrun as <-. split_and!; [lia | lia | |].
    + exists (step_events (global_step st) (Z.to_nat count)), epoch.
      rewrite Htrace2, Htrace, Hgs2, <- app_assoc. split; [done |].
      rewrite count_steps_events. lia.
    + by exists epoch, st1, path.
  - destruct (IH (epoch + 1) st2 final Hrun) as (Hbelow & _ & (events & e & Ht & Hg) & Hlast).
    split_and!; [intros _; apply Hbelow; lia | lia | | done].
    exists (step_events (global_step st) (Z.to_nat count)
              ++ [EvSave epoch (global_step st1)] ++ events), e.
    rewrite Ht, Htrace2, Htrace, <- !app_assoc. split; [done |].
    assert (Hnone : count_steps [EvSave epoch (global_step st1)] = 0) by done.
    rewrite !count_steps_app, count_steps_events, Hnone, Hg, Hgs2, Hstep. lia.
Qed.

End Run.

(** X21: however the shards are sized, a run of the loop over the epochs
    that comes to an end and started below the step limit ends with the
    global step exactly at the limit, never beyond; started at or beyond
    the limit (a finished run resumed) it takes at most one more step.
    Its global step has grown by the number of optimizer steps it has
    taken, and the last thing it did was to save a checkpoint of the
    final step. *)
Theorem finished_run (dataset_len : Z → nat) {learner : Type}
  (update : Z → Z → learner → learner) (args : namespace) (env : environ)
  (max_steps : Z) (fuel : nat) (epoch : Z) (st final : run_state learner) :
  getattr_int args "device_max_steps" = Some max_steps →
  epochs dataset_len update fuel args env epoch st = Some final →
  (global_step st < max_steps → global_step final = max_steps)
  ∧ (max_steps ≤ global_step st →
     global_step st ≤ global_step final ≤ global_step st + 1)
  ∧ (∃ events e,
       trace final = trace st ++ events ++ [EvSave e (global_step final)]
       ∧ global_step final = global_step st + count_steps events).
Proof.
  intros Hmax Hrun.
  destruct (epochs_inv dataset_len update args env max_steps Hmax fuel epoch st final
              Hrun) as (H1 & H2 & H3 & _).
  done.
Qed.

Lemma finished_run_witness :
  epochs scenario_lengths (λ _ _ u, u) 1 short_run_args (scenario_env 0) 0
    fresh_state = Some short_final
  ∧ global_step short_final = 2.
Proof.
  assert (Hrun : epochs scenario_lengths (λ _ _ u, u) 1 short_run_args
                   (scenario_env 0) 0 fresh_state = Some short_final)
    by (vm_compute; reflexivity).
  split; [exact Hrun |].
  exact (proj1 (finished_run scenario_lengths (λ _ _ u, u) short_run_args
                  (scenario_env 0) 2 1 0 fresh_state short_final eq_refl Hrun)
               ltac:(cbn; lia)).
Defined.

(** X22: when the loop over the epochs comes to an end on the designated
    process, the file at the fixed path is the checkpoint of the final
    state: it can be loaded, and it holds the final global step and the
    final learner. *)
Theorem finished_run_checkpoint (dataset_len : Z → nat) {learner : Type}
  (update : Z → Z → learner → learner) (args : namespace) (env : environ)
  (max_steps : Z) (output_dir : string) (fuel : nat) (epoch : Z)
  (st final : run_state learner) :
  getattr_int args "device_max_steps" = Some max_steps →
  getattr_str args "output_dir" = Some output_dir →
  is_main_process env = true →
  epochs dataset_len update fuel args env epoch st = Some final →
  ∃ ck,
    load (output_dir +:+ "/model.bin") (disk final) = Some ck
    ∧ ck_global_step ck = global_step final
    ∧ ck_learner ck = weights final
    ∧ ck_args ck = args.
Proof.
  intros Hmax Hdir Hmain Hrun.
  destruct (epochs_inv dataset_len update args env max_steps Hmax fuel epoch st final
              Hrun) as (_ & _ & _ & (e & st1 & path & Hsave)).
  unfold save in Hsave. rewrite Hdir in Hsave. cbn in Hsave.
  injection Hsave as _ <-. cbn [disk global_step weights].
  exists (checkpoint_of e args st1). split; [| done].
  unfold load. by rewrite CheckpointMore.saved_at_path.
Qed.

Lemma finished_run_checkpoint_witness :
  ∃ ck,
    load "ckpt/model.bin" (disk short_final) = Some ck
    ∧ ck_global_step ck = global_step short_final
    ∧ ck_learner ck = weights short_final
    ∧ ck_args ck = short_run_args.
Proof.
  exact (finished_run_checkpoint scenario_lengths (λ _ _ u, u) short_run_args
           (scenario_env 0) 2 "ckpt" 1 0 fresh_state short_final eq_refl eq_refl
           eq_refl ltac:(vm_compute; reflexivity)).
Defined.

End DriverMore.

(** ** The optimizer's parameter groups *)

Module OptimizerFacts.
Import Train.

Lemma contains_substring (nd n : string) :
  nd ≠ EmptyString →
  contains nd n = true ↔ ∃ m, String.substring m (String.length nd) n = nd.
Proof.
  intros Hnd. unfold contains. destruct (String.index 0 nd n) as [m |] eqn:Hidx.
  - split; [intros _ | done]. exists m. by apply (String.index_correct1 0).
  - split; [done |]. intros [m Hm]. exfalso.
    by apply (String.index_correct3 0 m nd n Hidx Hnd (Nat.le_0_l m)).
Qed.

Lemma exempt_substring (n : string) :
  exempt n = true
  ↔ ∃ nd m, nd ∈ no_decay ∧ String.substring m (String.length nd) n = nd.
Proof.
  unfold exempt. rewrite existsb_exists. split.
  - intros (nd & Hin & Hc). exists nd.
    assert (Hnd : nd ≠ EmptyString).
    { unfold no_decay in Hin. cbn in Hin.
      destruct Hin as [<- | [<- | [<- | []]]]; done. }
    apply contains_substring in Hc as [m Hm]; [| done].
    exists m. split; [by apply list_elem_of_In | done].
  - intros (nd & m & Hin & Hm). exists nd. apply list_elem_of_In in Hin.
    split; [done |]. apply contains_substring; [| by exists m].
    unfold no_decay in Hin. cbn in Hin.
    destruct Hin as [<- | [<- | [<- | []]]]; done.
Qed.

Lemma filter_split {A} (f : A → bool) (l : list A) :
  List.filter (λ x, negb (f x)) l ++ List.filter f l ≡ₚ l.
Proof.
  induction l as [| x l IH]; [done |]. cbn. destruct (f x); cbn.
  - rewrite <- Permutation_middle. by constructor.
  - by constructor.
Qed.

(** X23: the two parameter groups of the optimizer divide the named
    parameters of the model between them: together they hold every
    parameter once, a parameter is in the second group, whose weight decay
    is [0.0], exactly when ['bias'], ['layer_norm'] or ['_embedding']
    occurs somewhere in its name, and in the first group, with
    [args.weight_decay], otherwise. *)
Theorem parameter_groups {P : Type} (args : namespace)
  (params : list (string * P)) (weight_decay : value) :
  args !! "weight_decay" = Some weight_decay →
  optimizer_grouped_parameters args params =
    Some [ ((decay_params params).*2, weight_decay);
           ((no_decay_params params).*2, VFloat 0 0) ]
  ∧ (decay_params params).*2 ++ (no_decay_params params).*2 ≡ₚ params.*2
  ∧ (∀ n p, (n, p) ∈ no_decay_params params ↔
       (n, p) ∈ params
       ∧ ∃ nd m, nd ∈ no_decay ∧ String.substring m (String.length nd) n = nd)
  ∧ (∀ n p, (n, p) ∈ decay_params params ↔
       (n, p) ∈ params
       ∧ ¬ ∃ nd m, nd ∈ no_decay ∧ String.substring m (String.length nd) n = nd).
Proof.
  intros Hwd. split_and!.
  - unfold optimizer_grouped_parameters. by rewrite Hwd.
  - rewrite <- fmap_app. apply fmap_Permutation.
    apply (filter_split (λ np : string * P, exempt np.1)).
  - intros n p. unfold no_decay_params.
    rewrite !list_elem_of_In, List.filter_In, <- exempt_substring. done.
  - intros n p. unfold decay_params.
    rewrite !list_elem_of_In, List.filter_In, <- exempt_substring. cbn.
    by rewrite negb_true_iff, not_true_iff_false.
Qed.

Lemma parameter_groups_witness :
  optimizer_grouped_parameters {[ "weight_decay" := VFloat 1 (-1) ]}
    [ ("encoder.bias", 1%nat); ("encoder.weight", 2%nat);
      ("word_embedding.weight", 3%nat) ] =
    Some [ ([2%nat], VFloat 1 (-1)); ([1%nat; 3%nat], VFloat 0 0) ].
Proof.
  exact (proj1 (parameter_groups {[ "weight_decay" := VFloat 1 (-1) ]}
                  [ ("encoder.bias", 1%nat); ("encoder.weight", 2%nat);
                    ("word_embedding.weight", 3%nat) ]
                  (VFloat 1 (-1)) eq_refl)).
Defined.

End OptimizerFacts.
